(** * Attaching block ids and nearest network nodes to parcels

    A shallow embedding of the notebook
    [03-parcels-attach-blocks-network-nodes.ipynb].  The notebook is a
    sequence of cells over three tables (parcels, the parcel-to-block
    lookup and the network nodes).  Each cell is a function of the tables
    it reads, returning the tables it writes, inside an error monad that
    stands for a Python exception stopping the run.

    The notebook calls numpy, scipy, scikit-learn and pandas.  Their code
    is not part of the repository; the operations the notebook uses are
    modelled in the modules [np], [scipy], [sklearn] and [pd] below from
    the behaviour the libraries document for exactly the arguments the
    notebook passes. *)

From Stdlib Require Import String Reals Lra ZArith Bool List Permutation.
From Stdlib Require Import DecimalString DecimalPos DecimalZ.
Import ListNotations.

Set Implicit Arguments.

(** ** Exceptions *)

Inductive value_error : Type :=
| EmptyArray       (* an array with zero samples where one is required *)
| NonFinite        (* NaN or an infinity among the values *)
| LengthMismatch.  (* a column assigned with the wrong number of values *)

Inductive exn : Type :=
| AssertionError
| ValueError (why : value_error)
| IndexError       (* positional indexer out of bounds *)
| KeyError.        (* a column that the frame does not have *)

Inductive result (A : Type) : Type :=
| OK (a : A)
| Raise (e : exn).

Arguments OK {A} a.
Arguments Raise {A} e.

Definition bind {A B : Type} (m : result A) (k : A -> result B) : result B :=
  match m with
  | OK a => k a
  | Raise e => Raise e
  end.

Notation "x <- m ;; k" := (bind m (fun x => k))
  (at level 61, m at next level, right associativity).
Notation "' pat <- m ;; k" := (bind m (fun x => match x with pat => k end))
  (at level 61, pat pattern, m at next level, right associativity).

(** The [assert] statement of Python. *)
Definition py_assert (b : bool) : result unit :=
  if b then OK tt else Raise AssertionError.

(** A loop that stops at the first exception. *)
Fixpoint mapM {A B : Type} (f : A -> result B) (l : list A) : result (list B) :=
  match l with
  | [] => OK []
  | a :: rest =>
      b <- f a ;;
      bs <- mapM f rest ;;
      OK (b :: bs)
  end.

(** ** Floating-point values

    A float64 is either finite, idealised as the real number it denotes,
    or one of the three special values.  The idealisation has no
    rounding, no overflow and no underflow: what is finite here stays
    finite under arithmetic, and two computed values are equal only when
    the real numbers are.  The properties proved below for the notebook
    are those that hold whatever the arithmetic does: which exception the
    validation of the libraries raises, how positions become labels, how
    the tables are joined and saved.  Where a statement involves a
    distance, it is either a fact about the formula of the metric, read
    over the real numbers, or an instance kept well away from ties. *)

Inductive float64 : Type :=
| Fin (r : R)
| PInf
| NInf
| NaN.

Definition point : Type := (float64 * float64)%type.
Definition rpoint : Type := (R * R)%type.

Module np.

Definition isfinite (v : float64) : bool :=
  match v with
  | Fin _ => true
  | _ => false
  end.

(** [np.deg2rad]: multiplication by pi/180, elementwise; exact here,
    rounded in float64. *)
Definition deg2rad (v : float64) : float64 :=
  match v with
  | Fin r => Fin (r * PI / 180)
  | other => other
  end.

Definition deg2rad2 (p : point) : point := (deg2rad (fst p), deg2rad (snd p)).

(** The finite rows of a two-column array, or nothing when some entry is
    not finite: [np.isfinite(a).all()] together with the values. *)
Definition finite_row (p : point) : option rpoint :=
  match p with
  | (Fin a, Fin b) => Some (a, b)
  | _ => None
  end.

Fixpoint finite_rows (a : list point) : option (list rpoint) :=
  match a with
  | [] => Some []
  | p :: rest =>
      match finite_row p, finite_rows rest with
      | Some r, Some rs => Some (r :: rs)
      | _, _ => None
      end
  end.

End np.

(** ** Distance metrics *)

Inductive metric : Type :=
| Euclidean    (* Minkowski with p = 2 *)
| Haversine.

Definition sqr (a : R) : R := (a * a)%R.

(** Straight-line distance between two rows, over the real numbers. *)
Definition euclidean (a b : rpoint) : R :=
  sqrt (sqr (fst a - fst b) + sqr (snd a - snd b)).

(** Great-circle distance on the unit sphere between two rows of
    (latitude, longitude) in radians: the formula scikit-learn documents
    for [metric='haversine'], over the real numbers. *)
Definition haversine (a b : rpoint) : R :=
  (2 * asin (sqrt (sqr (sin ((fst a - fst b) / 2))
                   + cos (fst a) * cos (fst b) * sqr (sin ((snd a - snd b) / 2)))))%R.

Definition distance (m : metric) : rpoint -> rpoint -> R :=
  match m with
  | Euclidean => euclidean
  | Haversine => haversine
  end.

(** ** Exact nearest neighbour, k = 1

    Both tree libraries answer a k = 1 query with the position, in the
    array the tree was built from, of a point at least as close to the
    query as every other one.  The scan below stands for that answer
    over the idealised distances; among several points at the same
    distance it reports the first in storage order, as a tree of a
    single leaf does.  Which of several equally near points a larger
    tree reports, and which points are equally near once distances are
    rounded, is not fixed by this scan, and no general property
    stated for the notebook relies on it. *)

Fixpoint nearest (dq : rpoint -> R) (data : list rpoint) : option (nat * R) :=
  match data with
  | [] => None
  | p :: rest =>
      match nearest dq rest with
      | None => Some (O, dq p)
      | Some (i, d) =>
          if Rle_dec (dq p) d then Some (O, dq p) else Some (S i, d)
      end
  end.

(** ** scipy.spatial.cKDTree *)

Module scipy.

(** The tree is characterised by the array it indexes; [n] is the
    number of data points. *)
Record cKDTree : Type := { data : list rpoint }.

Definition n (t : cKDTree) : nat := length (data t).

(** [cKDTree(data, compact_nodes=True, balanced_tree=True)].  The data
    must be finite; an array of zero points is accepted. *)
Definition cKDTree_init (a : list point) : result cKDTree :=
  match np.finite_rows a with
  | Some rows => OK {| data := rows |}
  | None => Raise (ValueError NonFinite)
  end.

(** One row of [query(x, k=1)]: distance and position of the nearest
    point; a missing neighbour is reported as infinite distance and
    position [n].  Over the idealised distances a neighbour is missing
    only when the tree is empty; the library also reports one missing
    when every squared distance overflows. *)
Definition query1 (t : cKDTree) (q : rpoint) : float64 * nat :=
  match nearest (euclidean q) (data t) with
  | Some (i, d) => (Fin d, i)
  | None => (PInf, n t)
  end.

(** [tree.query(x, k=1)], returning the pair of arrays [(dist, idx)]. *)
Definition query (t : cKDTree) (x : list point)
  : result (list float64 * list nat) :=
  match np.finite_rows x with
  | Some qs => OK (split (map (query1 t) qs))
  | None => Raise (ValueError NonFinite)
  end.

End scipy.

(** ** sklearn.neighbors.BallTree *)

Module sklearn.

Record BallTree : Type := { data : list rpoint; dist_metric : metric }.

(** Input validation shared by the constructor and the query: at least
    one sample, all entries finite. *)
Definition check_array (a : list point) : result (list rpoint) :=
  match a with
  | [] => Raise (ValueError EmptyArray)
  | _ =>
      match np.finite_rows a with
      | Some rows => OK rows
      | None => Raise (ValueError NonFinite)
      end
  end.

(** [BallTree(X, metric=m)]. *)
Definition BallTree_init (X : list point) (m : metric) : result BallTree :=
  rows <- check_array X ;;
  OK {| data := rows; dist_metric := m |}.

(** [tree.query(X, k=1, return_distance=False)]: an array with one row
    per query and one column, the position of the nearest point. *)
Definition query (t : BallTree) (X : list point) : result (list (list nat)) :=
  qs <- check_array X ;;
  mapM (fun q =>
          match nearest (distance (dist_metric t) q) (data t) with
          | Some (i, _) => OK [i]
          | None => Raise (ValueError EmptyArray)   (* k exceeds the number of points *)
          end) qs.

End sklearn.

(** ** pandas *)

Module pd.

(** [index.is_unique]. *)
Fixpoint is_unique (keys : list Z) : bool :=
  match keys with
  | [] => true
  | k :: rest => negb (existsb (Z.eqb k) rest) && is_unique rest
  end.

(** [df.iloc[idx].index]: the index labels of the rows at the given
    positions; every position must be in bounds. *)
Definition iloc_index {A : Type} (label : A -> Z) (df : list A) (idx : list nat)
  : result (list Z) :=
  mapM (fun i =>
          match nth_error df i with
          | Some row => OK (label row)
          | None => Raise IndexError
          end) idx.

(** [idx[:, 0]]: the first column of a two-dimensional array. *)
Definition column0 {A : Type} (a : list (list A)) : result (list A) :=
  mapM (fun row =>
          match row with
          | v :: _ => OK v
          | [] => Raise IndexError
          end) a.

(** [pd.merge(left, right, how='left', left_index=True, right_index=True)]:
    every left row, in order, once per right row with the same key, or
    once with a missing value when there is none. *)
Definition merge_left {A B : Type} (key : A -> Z)
  (left : list A) (right : list (Z * B)) : list (A * option B) :=
  flat_map (fun l =>
              match filter (fun r => Z.eqb (fst r) (key l)) right with
              | [] => [(l, None)]
              | matches => map (fun r => (l, Some (snd r))) matches
              end) left.

End pd.

(** ** The tables of the notebook *)

(** A parcel polygon, after reprojection.  The notebook uses a polygon
    only through the centroid geopandas computes from it. *)
Record polygon : Type := { polygon_centroid : point }.

(** A row of the parcels shapefile. *)
Record shape : Type := { PARCEL_ID : Z; geometry : option polygon }.

(** A row of the network nodes file. *)
Record node : Type := { osmid : Z; node_x : float64; node_y : float64 }.

(** A row of [parcels] once the block id and the centroid are attached. *)
Record parcel : Type :=
  { shp : shape; block_geoid : option string; centroid : point }.

(** The columns [x] and [y], which both [nodes] and [parcels] have. *)
Class XY (A : Type) : Type := { x : A -> float64; y : A -> float64 }.

#[export] Instance node_XY : XY node := {| x := node_x; y := node_y |}.
#[export] Instance parcel_XY : XY parcel :=
  {| x := fun p => fst (centroid p); y := fun p => snd (centroid p) |}.

(** [df[[c1, c2]]]: the two named columns, in the order asked for. *)
Definition cols2 {A : Type} (c1 c2 : A -> float64) (df : list A) : list point :=
  map (fun r => (c1 r, c2 r)) df.

(** The [parcels] frame: its rows and, once assigned, the column [node]. *)
Record parcels_df : Type := { rows : list parcel; node_col : option (list Z) }.

(** [parcels['node'] = values], with [values] an index object: assigned
    by position, and the lengths must agree. *)
Definition setitem_node (df : parcels_df) (values : list Z) : result parcels_df :=
  if Nat.eqb (length values) (length (rows df))
  then OK {| rows := rows df; node_col := Some values |}
  else Raise (ValueError LengthMismatch).

(** A row of the saved csv. *)
Record saved : Type := { parcel_id : Z; block_id : option string; node_id : Z }.

(** The three input files. *)
Record files : Type :=
  { Parcels : list shape;
    parcels_joined_blocks : list (Z * string);
    bay_area_full_strongly_nodes : list node }.

(** ** The cells *)

(** Cell 2: read the shapefile (rows numbered from 0), drop the rows
    that lack geometry, check that the row numbers are unique. *)
Definition read_file (shapes : list shape) : list (Z * shape) :=
  combine (map Z.of_nat (seq 0 (length shapes))) shapes.

Definition has_geometry (s : shape) : bool :=
  match geometry s with
  | Some _ => true
  | None => false
  end.

Definition dropna_geometry (df : list (Z * shape)) : list (Z * shape) :=
  filter (fun r => has_geometry (snd r)) df.

Definition cell_2 (shapes : list shape) : result (list (Z * shape)) :=
  let parcels := read_file shapes in
  let parcels := dropna_geometry parcels in
  _ <- py_assert (pd.is_unique (map fst parcels)) ;;
  OK parcels.

(** Cell 3: the lookup table, indexed by [parcel_id]. *)
Definition cell_3 (csv : list (Z * string)) : result (list (Z * string)) :=
  let parcels_blocks := csv in
  _ <- py_assert (pd.is_unique (map fst parcels_blocks)) ;;
  OK parcels_blocks.

(** Cell 4: the nodes, indexed by [osmid]. *)
Definition cell_4 (csv : list node) : result (list node) :=
  let nodes := csv in
  _ <- py_assert (pd.is_unique (map osmid nodes)) ;;
  OK nodes.

(** Cell 5: [set_index('PARCEL_ID')] replaces the row numbers. *)
Definition cell_5 (parcels : list (Z * shape)) : list shape := map snd parcels.

(** Cell 6: merge the block ids into [parcels]. *)
Definition cell_6 (parcels : list shape) (parcels_blocks : list (Z * string))
  : list (shape * option string) :=
  pd.merge_left PARCEL_ID parcels parcels_blocks.

(** Cells 7 and 8: the centroid of each geometry and its coordinates. *)
Definition geo_centroid (g : option polygon) : point :=
  match g with
  | Some poly => polygon_centroid poly
  | None => (NaN, NaN)
  end.

Definition cell_7_8 (parcels : list (shape * option string)) : parcels_df :=
  {| rows := map (fun r => {| shp := fst r; block_geoid := snd r;
                              centroid := geo_centroid (geometry (fst r)) |}) parcels;
     node_col := None |}.

(** Cell 9: the k-d tree over the node coordinates. *)
Definition cell_9 (nodes : list node) : result scipy.cKDTree :=
  scipy.cKDTree_init (cols2 x y nodes).

(** Cell 10: query the tree with every centroid and write the label of
    the node found into [parcels['node']]. *)
Definition cell_10 (tree : scipy.cKDTree) (nodes : list node) (parcels : parcels_df)
  : result (list float64 * list nat * parcels_df) :=
  '(dist, idx) <- scipy.query tree (cols2 x y (rows parcels)) ;;
  labels <- pd.iloc_index osmid nodes idx ;;
  parcels <- setitem_node parcels labels ;;
  OK (dist, idx, parcels).

(** Cell 11: rows of (lat, lng) in radians. *)
Definition cell_11 (nodes : list node) (parcels : parcels_df)
  : list point * list point :=
  let nodes_rad := map np.deg2rad2 (cols2 y x nodes) in
  let parcels_rad := map np.deg2rad2 (cols2 y x (rows parcels)) in
  (nodes_rad, parcels_rad).

(** Cell 12: the ball tree with the haversine metric. *)
Definition cell_12 (nodes_rad : list point) : result sklearn.BallTree :=
  sklearn.BallTree_init nodes_rad Haversine.

(** Cell 13: query the ball tree and overwrite [parcels['node']]. *)
Definition cell_13 (tree : sklearn.BallTree) (nodes : list node)
  (parcels_rad : list point) (parcels : parcels_df)
  : result (list (list nat) * parcels_df) :=
  idx <- sklearn.query tree parcels_rad ;;
  idx0 <- pd.column0 idx ;;
  labels <- pd.iloc_index osmid nodes idx0 ;;
  parcels <- setitem_node parcels labels ;;
  OK (idx, parcels).

(** Cell 14: the three saved columns, renamed. *)
Definition cell_14 (parcels : parcels_df) : result (list saved) :=
  match node_col parcels with
  | None => Raise KeyError
  | Some col =>
      OK (map (fun r => {| parcel_id := PARCEL_ID (shp (fst r));
                           block_id := block_geoid (fst r);
                           node_id := snd r |})
              (combine (rows parcels) col))
  end.

(** The two methods, each from building its tree to writing the column. *)
Definition scipy_euclidean_method (nodes : list node) (parcels : parcels_df)
  : result (list float64 * list nat * parcels_df) :=
  tree <- cell_9 nodes ;;
  cell_10 tree nodes parcels.

Definition sklearn_haversine_method (nodes : list node) (parcels : parcels_df)
  : result (list (list nat) * parcels_df) :=
  let '(nodes_rad, parcels_rad) := cell_11 nodes parcels in
  tree <- cell_12 nodes_rad ;;
  cell_13 tree nodes parcels_rad parcels.

(** Cells 2 to 8: the tables as they stand before the nearest-node search. *)
Definition load_and_merge (f : files) : result (list node * parcels_df) :=
  parcels <- cell_2 (Parcels f) ;;
  parcels_blocks <- cell_3 (parcels_joined_blocks f) ;;
  nodes <- cell_4 (bay_area_full_strongly_nodes f) ;;
  let parcels := cell_5 parcels in
  let parcels := cell_6 parcels parcels_blocks in
  let parcels := cell_7_8 parcels in
  OK (nodes, parcels).

(** The notebook, run from top to bottom, down to the saved csv. *)
Definition notebook (f : files) : result (list saved) :=
  '(nodes, parcels) <- load_and_merge f ;;
  '(_, _, parcels) <- scipy_euclidean_method nodes parcels ;;
  '(_, parcels) <- sklearn_haversine_method nodes parcels ;;
  cell_14 parcels.

(** ** The vocabulary of the properties *)

(** The two metric variants the notebook offers. *)
Inductive selector : Type :=
| planar      (* scipy euclidean method *)
| geodesic.   (* scikit-learn haversine method *)

(** The run of one variant, down to the [parcels] frame it leaves. *)
Definition method (m : selector) (nodes : list node) (parcels : parcels_df)
  : result parcels_df :=
  match m with
  | planar =>
      '(_, _, parcels) <- scipy_euclidean_method nodes parcels ;;
      OK parcels
  | geodesic =>
      '(_, parcels) <- sklearn_haversine_method nodes parcels ;;
      OK parcels
  end.

(** Index construction alone, for either variant. *)
Inductive index : Type :=
| KDTree (t : scipy.cKDTree)
| Ball (t : sklearn.BallTree).

Definition build_index (m : selector) (nodes : list node) : result index :=
  match m with
  | planar =>
      tree <- cell_9 nodes ;;
      OK (KDTree tree)
  | geodesic =>
      tree <- cell_12 (map np.deg2rad2 (cols2 y x nodes)) ;;
      OK (Ball tree)
  end.

(** A location is an (x, y) pair: (longitude, latitude) in degrees when the
    metric is geodesic. *)
Definition location_of_node (n : node) : point := (x n, y n).

Definition finite_point (p : point) : bool :=
  np.isfinite (fst p) && np.isfinite (snd p).

(** The distance the spec configures for each selector: straight-line on
    the pair as it stands, or great-circle on radians of
    (latitude, longitude).  Undefined on non-finite coordinates. *)
Definition spec_coordinates (m : selector) (p : point) : option rpoint :=
  match m, p with
  | planar, (Fin a, Fin b) => Some (a, b)
  | geodesic, (Fin lng, Fin lat) => Some ((lat * PI / 180)%R, (lng * PI / 180)%R)
  | _, _ => None
  end.

Definition metric_of (m : selector) : metric :=
  match m with
  | planar => Euclidean
  | geodesic => Haversine
  end.

Definition spec_distance (m : selector) (a b : point) : option R :=
  match spec_coordinates m a, spec_coordinates m b with
  | Some ra, Some rb => Some (distance (metric_of m) ra rb)
  | _, _ => None
  end.

(** [id] labels a node of [nodes] that is at least as close to [q] as
    every node of [nodes]. *)
Definition is_nearest (m : selector) (nodes : list node) (q : point) (id : Z) : Prop :=
  exists n d,
    In n nodes /\ osmid n = id /\
    spec_distance m q (location_of_node n) = Some d /\
    forall n', In n' nodes ->
      exists d', spec_distance m q (location_of_node n') = Some d' /\ (d <= d')%R.

(** What a query leaves for one row, read off the cell: the scan over the
    indexed rows [data] reports a position, and [id] is the label of the
    node at that position of [nodes]. *)
Definition found_at (d : rpoint -> rpoint -> R) (data : list rpoint)
  (nodes : list node) (q : rpoint) (id : Z) : Prop :=
  exists j dj n,
    nearest (d q) data = Some (j, dj) /\
    nth_error nodes j = Some n /\ osmid n = id.

(** The query at position [i] of the batch is answered: the run leaves a
    node label at that position. *)
Definition answered (m : selector) (nodes : list node) (parcels : parcels_df)
  (i : nat) : Prop :=
  exists parcels' col id,
    method m nodes parcels = OK parcels' /\
    node_col parcels' = Some col /\
    nth_error col i = Some id.



(** Lookup in the parcel-to-block table. *)
Fixpoint lookup_block (k : Z) (table : list (Z * string)) : option string :=
  match table with
  | [] => None
  | (k', v) :: rest => if Z.eqb k' k then Some v else lookup_block k rest
  end.

(** ** Sample tables *)

Definition mk_node (id : Z) (a b : R) : node :=
  {| osmid := id; node_x := Fin a; node_y := Fin b |}.

Definition mk_parcel (id : Z) (c : point) : parcel :=
  {| shp := {| PARCEL_ID := id; geometry := Some {| polygon_centroid := c |} |};
     block_geoid := None;
     centroid := c |}.

Definition mk_frame (ps : list parcel) : parcels_df :=
  {| rows := ps; node_col := None |}.

Definition one_node : list node := [mk_node 1 0 0].

(** The scenario of the spec: two nodes, and a query midway between them. *)
Definition two_nodes : list node := [mk_node 1 0 0; mk_node 2 10 10].

(** Two nodes with distinct labels at one and the same location. *)
Definition stacked_nodes : list node := [mk_node 1 0 0; mk_node 2 0 0].
Definition stacked_nodes_swapped : list node := [mk_node 2 0 0; mk_node 1 0 0].

(** A batch whose second centroid is not finite. *)
Definition batch_with_nan : parcels_df :=
  mk_frame [mk_parcel 7 (Fin 0, Fin 0); mk_parcel 8 (NaN, Fin 0)].

Definition one_parcel : parcels_df := mk_frame [mk_parcel 7 (Fin 0, Fin 0)].
Definition midway_parcel : parcels_df := mk_frame [mk_parcel 7 (Fin 5, Fin 5)].

(** Near the pole: node 1 is the pole itself written with longitude 180,
    node 2 lies one degree of latitude south on the meridian of the
    query, which is the pole written with longitude 0. *)
Definition polar_nodes : list node := [mk_node 1 180 90; mk_node 2 0 89].
Definition polar_parcel : parcels_df := mk_frame [mk_parcel 7 (Fin 0, Fin 90)].

(** The same three places as rows of (latitude, longitude) in radians. *)
Definition pole : rpoint := (90 * PI / 180, 0 * PI / 180)%R.
Definition pole_180 : rpoint := (90 * PI / 180, 180 * PI / 180)%R.
Definition south_of_pole : rpoint := (89 * PI / 180, 0 * PI / 180)%R.

Definition polar_files : files :=
  {| Parcels :=
       [ {| PARCEL_ID := 7; geometry := Some {| polygon_centroid := (Fin 0, Fin 90) |} |} ];
     parcels_joined_blocks := [];
     bay_area_full_strongly_nodes := polar_nodes |}.

Definition sample_files : files :=
  {| Parcels :=
       [ {| PARCEL_ID := 7; geometry := Some {| polygon_centroid := (Fin 0, Fin 0) |} |};
         {| PARCEL_ID := 8; geometry := None |};
         {| PARCEL_ID := 9; geometry := Some {| polygon_centroid := (Fin 0, Fin 0) |} |} ];
     parcels_joined_blocks := [(7%Z, "060014001001000"%string)];
     bay_area_full_strongly_nodes := one_node |}.

(** A batch of two: the midway query, then a query at node 1. *)
Definition two_parcels : parcels_df :=
  mk_frame [mk_parcel 9 (Fin 5, Fin 5); mk_parcel 11 (Fin 0, Fin 0)].

(** A shapefile none of whose parcels has a geometry. *)
Definition no_geometry_files : files :=
  {| Parcels := [ {| PARCEL_ID := 8; geometry := None |} ];
     parcels_joined_blocks := [(8%Z, "060014001001000"%string)];
     bay_area_full_strongly_nodes := two_nodes |}.

(** ** Cell 15 and the two saved tables *)

(** [astype(str)] on a column of integers: the decimal text of each. *)
Definition astype_str (z : Z) : string := NilZero.string_of_int (Z.to_int z).

(** Reading such a text back as an integer, as [int(s)] does. *)
Definition int_of_str (s : string) : option Z :=
  option_map Z.of_int (NilZero.int_of_string s).

(** A row of the saved shapefile: the parcel with its geometry, the block
    id and the node label as text; [centroid], [x] and [y] are dropped. *)
Record saved_shape : Type :=
  { shp_PARCEL_ID : Z;
    shp_geometry : option polygon;
    shp_block_geoid : option string;
    shp_node : string }.

(** Cell 15: the full shapefile. *)
Definition cell_15 (parcels : parcels_df) : result (list saved_shape) :=
  match node_col parcels with
  | None => Raise KeyError
  | Some col =>
      OK (map (fun r => {| shp_PARCEL_ID := PARCEL_ID (shp (fst r));
                           shp_geometry := geometry (shp (fst r));
                           shp_block_geoid := block_geoid (fst r);
                           shp_node := astype_str (snd r) |})
              (combine (rows parcels) col))
  end.

(** The notebook down to its last cell: the csv and the shapefile. *)
Definition notebook_to_disk (f : files) : result (list saved * list saved_shape) :=
  '(nodes, parcels) <- load_and_merge f ;;
  '(_, _, parcels) <- scipy_euclidean_method nodes parcels ;;
  '(_, parcels) <- sklearn_haversine_method nodes parcels ;;
  df_save <- cell_14 parcels ;;
  shapefile <- cell_15 parcels ;;
  OK (df_save, shapefile).

(** ** The state of the input tables *)

(** The centroids of the parcels that have a geometry, in file order. *)
Definition centroids_of (f : files) : list point :=
  map (fun s => geo_centroid (geometry s)) (filter has_geometry (Parcels f)).

Definition node_locations (f : files) : list point :=
  map location_of_node (bay_area_full_strongly_nodes f).

(** [parcels] as cells 5 to 8 leave it. *)
Definition merged_parcels (f : files) : parcels_df :=
  cell_7_8 (cell_6 (cell_5 (dropna_geometry (read_file (Parcels f))))
                   (parcels_joined_blocks f)).

(** * Proofs *)

(** ** The error monad *)

Lemma bind_OK {A B : Type} (m : result A) (k : A -> result B) (b : B) :
  bind m k = OK b -> exists a, m = OK a /\ k a = OK b.
Proof.
  destruct m as [a|e]; simpl; intros H; [exists a; auto | discriminate].
Qed.

Tactic Notation "inv_bind" hyp(H) "as" ident(a) ident(Ha) :=
  apply bind_OK in H; destruct H as (a & Ha & H).

Lemma mapM_OK {A B : Type} (f : A -> result B) (l : list A) (bs : list B) :
  mapM f l = OK bs <-> Forall2 (fun a b => f a = OK b) l bs.
Proof.
  revert bs; induction l as [|a l IH]; intros bs; simpl.
  - split; intros H.
    + injection H as <-; constructor.
    + inversion H; reflexivity.
  - split; intros H.
    + inv_bind H as b Hb. inv_bind H as bs' Hbs. injection H as <-.
      constructor; [assumption | apply IH; assumption].
    + inversion H as [|? b ? bs' Hb Hbs]; subst.
      rewrite Hb; simpl. apply IH in Hbs. rewrite Hbs; reflexivity.
Qed.

(** ** Lists related position by position *)

Lemma Forall2_compose {A B C : Type} (P : A -> B -> Prop) (Q : B -> C -> Prop)
  (la : list A) (lb : list B) (lc : list C) :
  Forall2 P la lb -> Forall2 Q lb lc ->
  Forall2 (fun a c => exists b, P a b /\ Q b c) la lc.
Proof.
  intros H; revert lc; induction H as [|a b la lb Hab _ IH]; intros lc Hq.
  - inversion Hq; constructor.
  - inversion Hq as [|? c ? lc' Hbc Hq']; subst.
    constructor; [exists b; auto | apply IH; assumption].
Qed.

Lemma Forall2_map_l {A A' B : Type} (g : A -> A') (P : A' -> B -> Prop)
  (la : list A) (lb : list B) :
  Forall2 P (map g la) lb <-> Forall2 (fun a b => P (g a) b) la lb.
Proof.
  revert lb; induction la as [|a la IH]; intros lb; simpl.
  - split; intros H; inversion H; constructor.
  - split; intros H; inversion H; subst; constructor; auto; apply IH; assumption.
Qed.

Lemma Forall2_self_map {A B : Type} (g : A -> B) (l : list A) :
  Forall2 (fun a b => b = g a) l (map g l).
Proof. induction l; simpl; constructor; auto. Qed.

Lemma Forall2_nth_l {A B : Type} (P : A -> B -> Prop) (la : list A) (lb : list B)
  (i : nat) (a : A) :
  Forall2 P la lb -> nth_error la i = Some a ->
  exists b, nth_error lb i = Some b /\ P a b.
Proof.
  intros H; revert i; induction H as [|a0 b0 la lb H0 _ IH]; intros [|i]; simpl;
    try discriminate.
  - intros [= <-]; exists b0; auto.
  - apply IH.
Qed.

Lemma Forall2_In_l {A B : Type} (P : A -> B -> Prop) (la : list A) (lb : list B) (a : A) :
  Forall2 P la lb -> In a la -> exists b, In b lb /\ P a b.
Proof.
  induction 1 as [|a0 b0 la lb H0 _ IH]; simpl; [tauto|].
  intros [<-|Hin]; [exists b0; auto|].
  destruct (IH Hin) as (b & Hb & Hp); exists b; auto.
Qed.

Lemma Forall2_In_r {A B : Type} (P : A -> B -> Prop) (la : list A) (lb : list B) (b : B) :
  Forall2 P la lb -> In b lb -> exists a, In a la /\ P a b.
Proof.
  induction 1 as [|a0 b0 la lb H0 _ IH]; simpl; [tauto|].
  intros [<-|Hin]; [exists a0; auto|].
  destruct (IH Hin) as (a & Ha & Hp); exists a; auto.
Qed.

Lemma split_map {A B C : Type} (f : A -> B * C) (l : list A) :
  split (map f l) = (map (fun a => fst (f a)) l, map (fun a => snd (f a)) l).
Proof.
  induction l as [|a l IH]; simpl; [reflexivity|].
  rewrite IH; destruct (f a); reflexivity.
Qed.

(** ** numpy *)

Lemma finite_row_finite (p : point) :
  finite_point p = true <-> exists r, np.finite_row p = Some r.
Proof.
  destruct p as [[a| | |] [b| | |]]; cbn; split;
    try discriminate; try (intros [r Hr]; discriminate); eauto.
Qed.

Lemma finite_rows_Forall2 (a : list point) (rs : list rpoint) :
  np.finite_rows a = Some rs <-> Forall2 (fun p r => np.finite_row p = Some r) a rs.
Proof.
  revert rs; induction a as [|p a IH]; intros rs; simpl.
  - split; intros H; [injection H as <-; constructor | inversion H; reflexivity].
  - split; intros H.
    + destruct (np.finite_row p) as [r|] eqn:Hp; [|discriminate].
      destruct (np.finite_rows a) as [rs'|] eqn:Ha; [|discriminate].
      injection H as <-. constructor; [assumption | apply IH; reflexivity].
    + inversion H as [|? r ? rs' Hp Hrs]; subst.
      rewrite Hp. apply IH in Hrs. rewrite Hrs. reflexivity.
Qed.

Lemma finite_rows_total (a : list point) :
  forallb finite_point a = true -> exists rs, np.finite_rows a = Some rs.
Proof.
  induction a as [|p a IH]; simpl; [eauto|].
  intros H; apply andb_true_iff in H as [Hp Ha].
  apply finite_row_finite in Hp as [r Hr]. destruct (IH Ha) as [rs Hrs].
  exists (r :: rs). rewrite Hr, Hrs. reflexivity.
Qed.

Lemma finite_rows_None (a : list point) :
  forallb finite_point a = false -> np.finite_rows a = None.
Proof.
  intros H. destruct (np.finite_rows a) as [rs|] eqn:E; [|reflexivity].
  exfalso. apply finite_rows_Forall2 in E.
  assert (forallb finite_point a = true); [|congruence].
  apply forallb_forall. intros p Hp.
  destruct (Forall2_In_l _ E Hp) as (r & _ & Hr).
  apply finite_row_finite; eauto.
Qed.

(** ** The nearest-neighbour scan *)

Lemma nearest_None (dq : rpoint -> R) (data : list rpoint) :
  nearest dq data = None <-> data = [].
Proof.
  destruct data as [|p rest]; simpl; [tauto|].
  split; [|discriminate].
  destruct (nearest dq rest) as [[i d]|]; [|discriminate].
  destruct (Rle_dec (dq p) d); discriminate.
Qed.

Lemma nearest_spec (dq : rpoint -> R) (data : list rpoint) (i : nat) (d : R) :
  nearest dq data = Some (i, d) ->
  exists p, nth_error data i = Some p /\ d = dq p /\
            forall p', In p' data -> (d <= dq p')%R.
Proof.
  revert i d; induction data as [|p rest IH]; intros i d; simpl; [discriminate|].
  destruct (nearest dq rest) as [[j e]|] eqn:E.
  - destruct (IH j e eq_refl) as (pj & Hj & He & Hmin).
    destruct (Rle_dec (dq p) e) as [Hle|Hgt]; intros [= <- <-].
    + exists p; repeat split; auto.
      intros p' [<-|Hin]; [lra|]. specialize (Hmin p' Hin). lra.
    + exists pj; repeat split; auto.
      intros p' [<-|Hin]; [lra|]. auto.
  - apply nearest_None in E; subst rest. intros [= <- <-].
    exists p; repeat split; auto. intros p' [<-|[]]; lra.
Qed.

(** ** From the cells to positions *)

Lemma spec_coordinates_planar (p : point) :
  spec_coordinates planar p = np.finite_row p.
Proof. destruct p as [[a| | |] [b| | |]]; reflexivity. Qed.

Lemma spec_coordinates_geodesic (p : point) :
  spec_coordinates geodesic p = np.finite_row (np.deg2rad2 (snd p, fst p)).
Proof. destruct p as [[a| | |] [b| | |]]; reflexivity. Qed.

Lemma centroid_xy (p : parcel) : (x p, y p) = centroid p.
Proof. destruct p as [s b [cx cy]]; reflexivity. Qed.

Lemma setitem_node_OK (df df' : parcels_df) (values : list Z) :
  setitem_node df values = OK df' ->
  df' = {| rows := rows df; node_col := Some values |} /\
  length values = length (rows df).
Proof.
  unfold setitem_node. destruct (Nat.eqb_spec (length values) (length (rows df)));
    [|discriminate].
  intros [= <-]; auto.
Qed.

Lemma iloc_index_found (d : rpoint -> rpoint -> R) (data : list rpoint)
  (nodes : list node) (q : rpoint) (j : nat) (dj : R) (id : Z) :
  nearest (d q) data = Some (j, dj) ->
  match nth_error nodes j with
  | Some row => OK (osmid row)
  | None => Raise IndexError
  end = OK id ->
  found_at d data nodes q id.
Proof.
  intros Hn Hl. destruct (nth_error nodes j) as [n|] eqn:E; [|discriminate].
  injection Hl as <-. exists j, dj, n. auto.
Qed.

(** Cells 9 and 10. *)
Lemma scipy_euclidean_method_OK (nodes : list node) (parcels : parcels_df)
  (dist : list float64) (idx : list nat) (parcels' : parcels_df) :
  scipy_euclidean_method nodes parcels = OK (dist, idx, parcels') ->
  exists data labels,
    cell_9 nodes = OK {| scipy.data := data |} /\
    Forall2 (fun n r => np.finite_row (location_of_node n) = Some r) nodes data /\
    parcels' = {| rows := rows parcels; node_col := Some labels |} /\
    length labels = length (rows parcels) /\
    Forall2 (fun p id => exists q, np.finite_row (centroid p) = Some q /\
                                   found_at euclidean data nodes q id)
            (rows parcels) labels /\
    Forall2 (fun p dv => exists q, np.finite_row (centroid p) = Some q /\
                                   dv = fst (scipy.query1 {| scipy.data := data |} q))
            (rows parcels) dist.
Proof.
  unfold scipy_euclidean_method. intros H. inv_bind H as tree Ht.
  unfold cell_9, scipy.cKDTree_init in Ht |- *.
  destruct (np.finite_rows (cols2 x y nodes)) as [data|] eqn:Hd; [|discriminate].
  injection Ht as <-.
  apply finite_rows_Forall2 in Hd. unfold cols2 in Hd. apply Forall2_map_l in Hd.
  unfold cell_10 in H. inv_bind H as di Hdi. destruct di as [dist0 idx0].
  unfold scipy.query in Hdi.
  destruct (np.finite_rows (cols2 x y (rows parcels))) as [qs|] eqn:Hq; [|discriminate].
  rewrite split_map in Hdi. injection Hdi as <- <-.
  apply finite_rows_Forall2 in Hq. unfold cols2 in Hq. apply Forall2_map_l in Hq.
  inv_bind H as labels Ha. inv_bind H as df Hset. injection H as <- <- <-.
  apply setitem_node_OK in Hset as [-> Hlen].
  apply mapM_OK in Ha. apply Forall2_map_l in Ha.
  exists data, labels. repeat split; auto.
  - eapply Forall2_impl; [|exact (Forall2_compose Hq Ha)].
    intros p id (q & Hp & Hl). cbv beta in Hp, Hl. rewrite centroid_xy in Hp.
    exists q; split; [assumption|].
    unfold scipy.query1 in Hl; simpl in Hl.
    destruct (nearest (euclidean q) data) as [[j dj]|] eqn:Hn; simpl in Hl.
    + eapply iloc_index_found; eauto.
    + exfalso. unfold scipy.n in Hl; simpl in Hl.
      rewrite <- (Forall2_length Hd) in Hl.
      rewrite (proj2 (nth_error_None nodes (length nodes)) (le_n _)) in Hl.
      discriminate.
  - eapply Forall2_impl;
      [|exact (Forall2_compose Hq
                 (Forall2_self_map (fun q => fst (scipy.query1 {| scipy.data := data |} q)) qs))].
    intros p dv (q & Hp & ->). cbv beta in Hp. rewrite centroid_xy in Hp. eauto.
Qed.

Lemma check_array_OK (a : list point) (rs : list rpoint) :
  sklearn.check_array a = OK rs <-> a <> [] /\ np.finite_rows a = Some rs.
Proof.
  unfold sklearn.check_array. destruct a as [|p a].
  - split; [discriminate | intros [H _]; congruence].
  - destruct (np.finite_rows (p :: a)) as [rs'|]; split.
    + intros [= <-]; split; [discriminate | reflexivity].
    + intros [_ [= <-]]; reflexivity.
    + discriminate.
    + intros [_ H]; discriminate.
Qed.

(** Cells 11, 12 and 13. *)
Lemma sklearn_haversine_method_OK (nodes : list node) (parcels : parcels_df)
  (idx : list (list nat)) (parcels' : parcels_df) :
  sklearn_haversine_method nodes parcels = OK (idx, parcels') ->
  exists data labels,
    cell_12 (fst (cell_11 nodes parcels))
      = OK {| sklearn.data := data; sklearn.dist_metric := Haversine |} /\
    Forall2 (fun n r => np.finite_row (np.deg2rad2 (y n, x n)) = Some r) nodes data /\
    parcels' = {| rows := rows parcels; node_col := Some labels |} /\
    length labels = length (rows parcels) /\
    Forall2 (fun p id => exists q,
                 np.finite_row (np.deg2rad2 (y p, x p)) = Some q /\
                 found_at haversine data nodes q id)
            (rows parcels) labels /\
    rows parcels <> [].
Proof.
  unfold sklearn_haversine_method, cell_11. cbv iota zeta beta. intros H.
  inv_bind H as tree Ht.
  unfold fst. unfold cell_12, sklearn.BallTree_init in Ht |- *.
  inv_bind Ht as data Hd. injection Ht as <-.
  rewrite Hd; cbn [bind].
  apply check_array_OK in Hd as [_ Hd].
  apply finite_rows_Forall2 in Hd. unfold cols2 in Hd.
  rewrite map_map in Hd. apply Forall2_map_l in Hd.
  unfold cell_13 in H. inv_bind H as idx2 Hi2.
  inv_bind H as idx0 Hi0. inv_bind H as labels Ha.
  inv_bind H as df Hset. injection H as <- <-.
  apply setitem_node_OK in Hset as [-> Hlen].
  unfold sklearn.query in Hi2. inv_bind Hi2 as qs Hq.
  apply check_array_OK in Hq as [Hqne Hq].
  apply finite_rows_Forall2 in Hq. unfold cols2 in Hq, Hqne.
  rewrite map_map in Hq. apply Forall2_map_l in Hq.
  apply mapM_OK in Hi2. apply mapM_OK in Hi0. apply mapM_OK in Ha.
  exists data, labels.
  split; [reflexivity|]. split; [exact Hd|]. split; [reflexivity|].
  split; [exact Hlen|]. split.
  - eapply Forall2_impl;
      [|exact (Forall2_compose Hq (Forall2_compose Hi2 (Forall2_compose Hi0 Ha)))].
    intros p id (q & Hp & row & Hrow & j & Hj & Hl). cbv beta in *.
    exists q; split; [assumption|]. simpl in Hrow.
    destruct (nearest (haversine q) data) as [[j' dj]|] eqn:Hn; [|discriminate].
    injection Hrow as <-. injection Hj as <-.
    eapply iloc_index_found; eauto.
  - intros E. rewrite E in Hqne. apply Hqne. reflexivity.
Qed.

(** Either variant, in the vocabulary of the spec. *)
Lemma method_OK (m : selector) (nodes : list node) (parcels parcels' : parcels_df) :
  method m nodes parcels = OK parcels' ->
  exists data labels,
    Forall2 (fun n r => spec_coordinates m (location_of_node n) = Some r) nodes data /\
    parcels' = {| rows := rows parcels; node_col := Some labels |} /\
    length labels = length (rows parcels) /\
    Forall2 (fun p id => exists q,
                 spec_coordinates m (centroid p) = Some q /\
                 found_at (distance (metric_of m)) data nodes q id)
            (rows parcels) labels /\
    (m = geodesic -> rows parcels <> []).
Proof.
  destruct m; unfold method; intros H; inv_bind H as a Ha.
  - destruct a as [[dist idx] p']. injection H as <-.
    apply scipy_euclidean_method_OK in Ha
      as (data & labels & _ & Hd & -> & Hlen & Hl & _).
    exists data, labels.
    split; [|split; [|split; [|split]]]; [|reflexivity|assumption| |discriminate].
    + eapply Forall2_impl; [|exact Hd].
      intros n r Hr. rewrite spec_coordinates_planar. exact Hr.
    + eapply Forall2_impl; [|exact Hl].
      intros p id (q & Hq & Hf). exists q. rewrite spec_coordinates_planar. auto.
  - destruct a as [idx p']. injection H as <-.
    apply sklearn_haversine_method_OK in Ha
      as (data & labels & _ & Hd & -> & Hlen & Hl & Hne).
    exists data, labels.
    split; [|split; [|split; [|split]]]; [|reflexivity|assumption| |auto].
    + eapply Forall2_impl; [|exact Hd].
      intros n r Hr. rewrite spec_coordinates_geodesic. exact Hr.
    + eapply Forall2_impl; [|exact Hl].
      intros p id (q & Hq & Hf). exists q. rewrite spec_coordinates_geodesic.
      rewrite <- centroid_xy. auto.
Qed.

Lemma found_at_is_nearest (m : selector) (nodes : list node) (data : list rpoint)
  (qp : point) (q : rpoint) (id : Z) :
  Forall2 (fun n r => spec_coordinates m (location_of_node n) = Some r) nodes data ->
  spec_coordinates m qp = Some q ->
  found_at (distance (metric_of m)) data nodes q id ->
  is_nearest m nodes qp id.
Proof.
  intros Hd Hq (j & dj & n & Hn & Hnth & Hid).
  apply nearest_spec in Hn as (r & Hr & -> & Hmin).
  destruct (Forall2_nth_l _ Hd Hnth) as (r' & Hr' & Hc).
  assert (r' = r) by congruence; subst r'.
  exists n, (distance (metric_of m) q r). repeat split.
  - eapply nth_error_In; eassumption.
  - assumption.
  - unfold spec_distance. rewrite Hq, Hc. reflexivity.
  - intros n' Hin. destruct (Forall2_In_l _ Hd Hin) as (r' & Hin' & Hc').
    exists (distance (metric_of m) q r'). split.
    + unfold spec_distance. rewrite Hq, Hc'. reflexivity.
    + apply Hmin; assumption.
Qed.

(** ** When the cells run through *)

Lemma mapM_total {A B : Type} (f : A -> result B) (l : list A) :
  (forall a, In a l -> exists b, f a = OK b) ->
  exists bs, mapM f l = OK bs /\ length bs = length l.
Proof.
  induction l as [|a l IH]; simpl; intros H; [exists []; auto|].
  destruct (H a (or_introl eq_refl)) as [b Hb].
  destruct IH as (bs & Hbs & Hlen); [intros a' Ha'; apply H; auto|].
  exists (b :: bs). rewrite Hb, Hbs; simpl. auto.
Qed.

Lemma nearest_in_range (dq : rpoint -> R) (data : list rpoint) :
  data <> [] -> exists j dj, nearest dq data = Some (j, dj) /\ (j < length data)%nat.
Proof.
  intros Hne. destruct (nearest dq data) as [[j dj]|] eqn:E.
  - exists j, dj; split; [reflexivity|].
    apply nearest_spec in E as (p & Hp & _). apply nth_error_Some. congruence.
  - apply nearest_None in E; contradiction.
Qed.

Lemma iloc_index_in_range (nodes : list node) (j : nat) :
  (j < length nodes)%nat ->
  exists id, match nth_error nodes j with
             | Some row => OK (osmid row)
             | None => Raise IndexError
             end = OK id.
Proof.
  intros Hj. destruct (nth_error nodes j) as [n|] eqn:E; [eauto|].
  apply nth_error_None in E. exfalso. apply (Nat.lt_irrefl j).
  eapply Nat.lt_le_trans; eassumption.
Qed.

Lemma finite_point_deg2rad2 (p : point) :
  finite_point (np.deg2rad2 p) = finite_point p.
Proof. destruct p as [[a| | |] [b| | |]]; reflexivity. Qed.

Lemma finite_point_swap (a b : float64) :
  finite_point (a, b) = finite_point (b, a).
Proof. unfold finite_point; simpl. apply andb_comm. Qed.

Lemma forallb_map {A B : Type} (f : B -> bool) (g : A -> B) (l : list A) :
  forallb f (map g l) = forallb (fun a => f (g a)) l.
Proof. induction l as [|a l IH]; simpl; [reflexivity | rewrite IH; reflexivity]. Qed.

Lemma forallb_ext_eq {A : Type} (f g : A -> bool) (l : list A) :
  (forall a, f a = g a) -> forallb f l = forallb g l.
Proof. intros H; induction l as [|a l IH]; simpl; [reflexivity | rewrite H, IH; reflexivity]. Qed.

Lemma scipy_euclidean_method_total (nodes : list node) (parcels : parcels_df) :
  nodes <> [] ->
  forallb finite_point (map location_of_node nodes) = true ->
  forallb finite_point (map centroid (rows parcels)) = true ->
  exists r, scipy_euclidean_method nodes parcels = OK r.
Proof.
  intros Hne Hfn Hfp.
  destruct (@finite_rows_total (cols2 x y nodes)) as [data Hd]; [exact Hfn|].
  destruct (@finite_rows_total (cols2 x y (rows parcels))) as [qs Hq].
  { unfold cols2. rewrite forallb_map. rewrite forallb_map in Hfp.
    rewrite <- Hfp. apply forallb_ext_eq. intros p. rewrite centroid_xy. reflexivity. }
  unfold scipy_euclidean_method, cell_9, scipy.cKDTree_init. rewrite Hd. cbn [bind].
  unfold cell_10, scipy.query. rewrite Hq, split_map. cbn [bind].
  assert (Hlen : length data = length nodes).
  { apply finite_rows_Forall2 in Hd. apply Forall2_length in Hd.
    unfold cols2 in Hd. rewrite length_map in Hd. auto. }
  assert (Hdne : data <> []).
  { intros ->. destruct nodes; [contradiction | discriminate]. }
  destruct (@mapM_total _ _
              (fun i => match nth_error nodes i with
                        | Some row => OK (osmid row)
                        | None => Raise IndexError
                        end)
              (map (fun q => snd (scipy.query1 {| scipy.data := data |} q)) qs))
    as (labels & Hl & Hll).
  { intros j Hj. apply in_map_iff in Hj as (q & <- & _).
    unfold scipy.query1; simpl.
    destruct (nearest_in_range (euclidean q) Hdne) as (j & dj & -> & Hlt).
    simpl. apply iloc_index_in_range. rewrite <- Hlen. exact Hlt. }
  unfold pd.iloc_index. rewrite Hl. cbn [bind].
  unfold setitem_node.
  assert (E : length labels = length (rows parcels)).
  { rewrite Hll, length_map. apply finite_rows_Forall2 in Hq.
    apply Forall2_length in Hq. unfold cols2 in Hq. rewrite length_map in Hq. auto. }
  rewrite E, Nat.eqb_refl. simpl. eauto.
Qed.

Lemma radians_finite {A : Type} `{XY A} (df : list A) :
  forallb finite_point (map np.deg2rad2 (cols2 y x df))
  = forallb finite_point (cols2 x y df).
Proof.
  unfold cols2. rewrite !forallb_map. apply forallb_ext_eq. intros a.
  rewrite finite_point_deg2rad2. apply finite_point_swap.
Qed.

Lemma sklearn_haversine_method_total (nodes : list node) (parcels : parcels_df) :
  nodes <> [] ->
  forallb finite_point (map location_of_node nodes) = true ->
  rows parcels <> [] ->
  forallb finite_point (map centroid (rows parcels)) = true ->
  exists r, sklearn_haversine_method nodes parcels = OK r.
Proof.
  intros Hne Hfn Hpe Hfp.
  assert (Hfp' : forallb finite_point (cols2 x y (rows parcels)) = true).
  { unfold cols2. rewrite forallb_map. rewrite forallb_map in Hfp.
    rewrite <- Hfp. apply forallb_ext_eq. intros p. rewrite centroid_xy. reflexivity. }
  destruct (@finite_rows_total (map np.deg2rad2 (cols2 y x nodes))) as [data Hd].
  { rewrite radians_finite. exact Hfn. }
  destruct (@finite_rows_total (map np.deg2rad2 (cols2 y x (rows parcels)))) as [qs Hq].
  { rewrite radians_finite. exact Hfp'. }
  assert (Hcd : sklearn.check_array (map np.deg2rad2 (cols2 y x nodes)) = OK data).
  { apply check_array_OK. split; [|exact Hd].
    destruct nodes; [contradiction | discriminate]. }
  assert (Hcq : sklearn.check_array (map np.deg2rad2 (cols2 y x (rows parcels))) = OK qs).
  { apply check_array_OK. split; [|exact Hq].
    destruct (rows parcels); [contradiction | discriminate]. }
  assert (Hlen : length data = length nodes).
  { apply finite_rows_Forall2 in Hd. apply Forall2_length in Hd.
    unfold cols2 in Hd. rewrite !length_map in Hd. auto. }
  assert (Hdne : data <> []).
  { intros ->. destruct nodes; [contradiction | discriminate]. }
  unfold sklearn_haversine_method, cell_11. cbv iota zeta beta.
  unfold cell_12, sklearn.BallTree_init. rewrite Hcd. cbn [bind].
  unfold cell_13, sklearn.query. rewrite Hcq. cbn [bind].
  destruct (@mapM_total _ _
              (fun q => match nearest (haversine q) data with
                        | Some (i, _) => OK [i]
                        | None => Raise (ValueError EmptyArray)
                        end) qs) as (idx & Hidx & Hlidx).
  { intros q _. destruct (nearest_in_range (haversine q) Hdne) as (j & dj & -> & _).
    eauto. }
  simpl sklearn.data. simpl sklearn.dist_metric. simpl distance.
  rewrite Hidx. cbn [bind].
  assert (Hrows : forall row, In row idx -> exists j, row = [j] /\ (j < length nodes)%nat).
  { intros row Hrow. apply mapM_OK in Hidx.
    destruct (Forall2_In_r _ Hidx Hrow) as (q & _ & Hqr). cbv beta in Hqr.
    destruct (nearest_in_range (haversine q) Hdne) as (j & dj & Hn & Hlt).
    rewrite Hn in Hqr. injection Hqr as <-. exists j. rewrite <- Hlen. auto. }
  destruct (@mapM_total _ _
              (fun row : list nat => match row with
                                      | v :: _ => OK v
                                      | [] => Raise IndexError
                                      end) idx) as (idx0 & Hidx0 & Hlidx0).
  { intros row Hrow. destruct (Hrows row Hrow) as (j & -> & _). eauto. }
  unfold pd.column0. rewrite Hidx0. cbn [bind].
  destruct (@mapM_total _ _
              (fun i => match nth_error nodes i with
                        | Some row => OK (osmid row)
                        | None => Raise IndexError
                        end) idx0) as (labels & Hl & Hll).
  { intros j Hj. apply mapM_OK in Hidx0.
    destruct (Forall2_In_r _ Hidx0 Hj) as (row & Hrow & Hrj). cbv beta in Hrj.
    destruct (Hrows row Hrow) as (j' & -> & Hlt). injection Hrj as <-.
    apply iloc_index_in_range. exact Hlt. }
  unfold pd.iloc_index. rewrite Hl. cbn [bind].
  unfold setitem_node.
  assert (E : length labels = length (rows parcels)).
  { rewrite Hll, Hlidx0, Hlidx. apply finite_rows_Forall2 in Hq.
    apply Forall2_length in Hq. unfold cols2 in Hq. rewrite !length_map in Hq. auto. }
  rewrite E, Nat.eqb_refl. simpl. eauto.
Qed.

Lemma method_total (m : selector) (nodes : list node) (parcels : parcels_df) :
  nodes <> [] ->
  forallb finite_point (map location_of_node nodes) = true ->
  (m = geodesic -> rows parcels <> []) ->
  forallb finite_point (map centroid (rows parcels)) = true ->
  exists parcels', method m nodes parcels = OK parcels'.
Proof.
  intros Hne Hfn Hpe Hfp. destruct m; unfold method.
  - destruct (scipy_euclidean_method_total parcels Hne Hfn Hfp) as [[[d i] p] ->].
    simpl; eauto.
  - destruct (sklearn_haversine_method_total parcels Hne Hfn (Hpe eq_refl) Hfp)
      as [[i p] ->].
    simpl; eauto.
Qed.

(** ** Evaluating the scan on given rows *)

Lemma nearest_one (dq : rpoint -> R) (p : rpoint) :
  nearest dq [p] = Some (O, dq p).
Proof. reflexivity. Qed.

Lemma nearest_head (dq : rpoint -> R) (p : rpoint) (rest : list rpoint) (i : nat) (d : R) :
  nearest dq rest = Some (i, d) -> (dq p <= d)%R ->
  nearest dq (p :: rest) = Some (O, dq p).
Proof.
  intros E Hle. simpl. rewrite E. destruct (Rle_dec (dq p) d); [reflexivity | contradiction].
Qed.

Lemma nearest_tail (dq : rpoint -> R) (p : rpoint) (rest : list rpoint) (i : nat) (d : R) :
  nearest dq rest = Some (i, d) -> (d < dq p)%R ->
  nearest dq (p :: rest) = Some (S i, d).
Proof.
  intros E Hlt. simpl. rewrite E. destruct (Rle_dec (dq p) d); [lra | reflexivity].
Qed.

(** ** Soundness of either variant *)

Lemma method_sound (m : selector) (nodes : list node) (parcels parcels' : parcels_df) :
  method m nodes parcels = OK parcels' ->
  exists labels,
    parcels' = {| rows := rows parcels; node_col := Some labels |} /\
    length labels = length (rows parcels) /\
    Forall2 (fun p id => is_nearest m nodes (centroid p) id) (rows parcels) labels.
Proof.
  intros H. apply method_OK in H as (data & labels & Hd & -> & Hlen & Hl & _).
  exists labels. repeat split; auto.
  eapply Forall2_impl; [|exact Hl].
  intros p id (q & Hq & Hf). eapply found_at_is_nearest; eassumption.
Qed.

Lemma is_nearest_in_nodes (m : selector) (nodes : list node) (q : point) (id : Z) :
  is_nearest m nodes q id -> In id (map osmid nodes).
Proof.
  intros (n & d & Hin & <- & _). apply in_map. exact Hin.
Qed.

(** C6.  Whenever a variant writes the column [node], every label in it
    is the [osmid] of a row of the node table it was given, one label per
    query. *)
Theorem node_id_from_node_set
  (m : selector) (nodes : list node) (parcels parcels' : parcels_df) :
  method m nodes parcels = OK parcels' ->
  exists labels,
    node_col parcels' = Some labels /\
    length labels = length (rows parcels) /\
    Forall (fun id => In id (map osmid nodes)) labels.
Proof.
  intros H. destruct (method_sound _ _ _ H) as (labels & -> & Hlen & Hl).
  exists labels. repeat split; auto.
  apply Forall_forall. intros id Hid.
  destruct (Forall2_In_r _ Hl Hid) as (p & _ & Hn).
  eapply is_nearest_in_nodes; eassumption.
Qed.

Lemma method_one_node (m : selector) :
  method m one_node one_parcel
  = OK {| rows := rows one_parcel; node_col := Some [1%Z] |}.
Proof. destruct m; reflexivity. Qed.

Lemma node_id_from_node_set_witness :
  exists labels,
    node_col {| rows := rows one_parcel; node_col := Some [1%Z] |} = Some labels /\
    length labels = length (rows one_parcel) /\
    Forall (fun id => In id (map osmid one_node)) labels.
Proof.
  exact (@node_id_from_node_set planar one_node one_parcel _ (method_one_node planar)).
Defined.

(** ** What the query cells read *)

Lemma cell_13_reads_rows (tree : sklearn.BallTree) (nodes : list node)
  (parcels_rad : list point) (parcels parcels2 : parcels_df) :
  rows parcels2 = rows parcels ->
  cell_13 tree nodes parcels_rad parcels2 = cell_13 tree nodes parcels_rad parcels.
Proof.
  intros E. unfold cell_13, setitem_node. rewrite E. reflexivity.
Qed.

Lemma midway_tie :
  nearest (euclidean (5, 5)%R) [(0, 0)%R; (10, 10)%R]
  = Some (O, euclidean (5, 5)%R (0, 0)%R).
Proof.
  eapply nearest_head; [apply nearest_one|].
  unfold euclidean, sqr; simpl. apply sqrt_le_1_alt. lra.
Qed.

(** ** Straight-line distance *)

Lemma euclidean_nonneg (a b : rpoint) : (0 <= euclidean a b)%R.
Proof. apply sqrt_pos. Qed.

Lemma euclidean_self (a : rpoint) : euclidean a a = 0%R.
Proof.
  unfold euclidean, sqr.
  replace ((fst a - fst a) * (fst a - fst a) + (snd a - snd a) * (snd a - snd a))%R
    with 0%R by ring.
  apply sqrt_0.
Qed.

(** ** Nodes stacked on one location *)




(** Whatever position a tree reports for the two stacked rows, the two
    orderings of the node table label it differently. *)
Lemma stacked_labels_differ_at_every_position (j : nat) :
  (j < 2)%nat ->
  nth_error (map osmid stacked_nodes) j <> nth_error (map osmid stacked_nodes_swapped) j.
Proof.
  destruct j as [|[|j]]; simpl; intros Hj; try discriminate.
  exfalso. apply Nat.succ_lt_mono in Hj. apply Nat.succ_lt_mono in Hj.
  inversion Hj.
Qed.

Lemma spec_coordinates_finite (m : selector) (p : point) (r : rpoint) :
  spec_coordinates m p = Some r -> finite_point p = true.
Proof. destruct m, p as [[a| | |] [b| | |]]; simpl; intros H; try discriminate; reflexivity. Qed.

Lemma Forall2_functional {A B : Type} (P Q : A -> B -> Prop)
  (l : list A) (l1 l2 : list B) :
  Forall2 P l l1 -> Forall2 Q l l2 ->
  (forall a b c, In a l -> P a b -> Q a c -> b = c) ->
  l1 = l2.
Proof.
  intros H; revert l2; induction H as [|a b l l1 Hab _ IH]; intros l2 H2 Hf.
  - inversion H2; reflexivity.
  - inversion H2 as [|? c ? l2' Hac H2']; subst. f_equal.
    + eapply Hf; [left; reflexivity | eassumption | eassumption].
    + apply IH; [assumption|]. intros a' b' c' Hin. apply Hf. right; assumption.
Qed.





Lemma origin_nearest :
  nearest (euclidean (0, 0)%R) (@cons rpoint (0, 0)%R (@cons rpoint (10, 10)%R nil))
  = Some (O, euclidean (0, 0)%R (0, 0)%R).
Proof.
  eapply nearest_head; [apply nearest_one|].
  rewrite euclidean_self. apply euclidean_nonneg.
Qed.

Lemma origin_run :
  method planar two_nodes one_parcel
  = OK {| rows := rows one_parcel; node_col := Some [1%Z] |}.
Proof.
  unfold method, scipy_euclidean_method, cell_9, cell_10, scipy.cKDTree_init, scipy.query.
  cbn [two_nodes one_parcel mk_frame rows cols2 map np.finite_rows np.finite_row
       mk_parcel mk_node x y parcel_XY node_XY node_x node_y centroid fst snd bind].
  unfold scipy.query1. cbn [scipy.data]. rewrite origin_nearest. reflexivity.
Qed.

(** ** Non-finite query points *)

Lemma cols2_xy_centroid (ps : list parcel) : cols2 x y ps = map centroid ps.
Proof. unfold cols2. apply map_ext. intros p. apply centroid_xy. Qed.

Lemma scipy_euclidean_method_non_finite (nodes : list node) (parcels : parcels_df) :
  forallb finite_point (map centroid (rows parcels)) = false ->
  scipy_euclidean_method nodes parcels = Raise (ValueError NonFinite).
Proof.
  intros Hnf. unfold scipy_euclidean_method, cell_9, scipy.cKDTree_init.
  destruct (np.finite_rows (cols2 x y nodes)) as [data|]; [|reflexivity].
  cbn [bind]. unfold cell_10, scipy.query.
  rewrite cols2_xy_centroid, (finite_rows_None _ Hnf). reflexivity.
Qed.

Lemma sklearn_haversine_method_non_finite (nodes : list node) (parcels : parcels_df) :
  forallb finite_point (map centroid (rows parcels)) = false ->
  sklearn_haversine_method nodes parcels
  = Raise (ValueError (match nodes with [] => EmptyArray | _ => NonFinite end)).
Proof.
  intros Hnf. unfold sklearn_haversine_method, cell_11. cbv iota zeta beta.
  unfold cell_12, sklearn.BallTree_init.
  destruct nodes as [|n nodes]; [reflexivity|].
  destruct (sklearn.check_array (map np.deg2rad2 (cols2 y x (n :: nodes))))
    as [data|e] eqn:Hc.
  - cbn [bind]. unfold cell_13, sklearn.query.
    assert (Hq : sklearn.check_array (map np.deg2rad2 (cols2 y x (rows parcels)))
                 = Raise (ValueError NonFinite)).
    { assert (Hf : np.finite_rows (map np.deg2rad2 (cols2 y x (rows parcels))) = None).
      { apply finite_rows_None. rewrite radians_finite, cols2_xy_centroid. exact Hnf. }
      unfold sklearn.check_array. rewrite Hf.
      destruct (rows parcels); [simpl in Hnf; discriminate | reflexivity]. }
    rewrite Hq. reflexivity.
  - cbn [bind]. unfold sklearn.check_array in Hc. simpl map in Hc.
    cbv iota in Hc.
    match type of Hc with
    | match ?o with _ => _ end = _ => destruct o; [discriminate|]
    end.
    injection Hc as <-. reflexivity.
Qed.

(** C3, as the spec states it, fails on a batch of two queries whose
    second centroid is NaN: the first query, which is finite, is left
    without an answer under either variant. *)
Lemma nan_query_aborts_batch :
  nth_error (rows batch_with_nan) 0 = Some (mk_parcel 7 (Fin 0, Fin 0)) /\
  finite_point (centroid (mk_parcel 7 (Fin 0, Fin 0))) = true /\
  method planar two_nodes batch_with_nan = Raise (ValueError NonFinite) /\
  method geodesic two_nodes batch_with_nan = Raise (ValueError NonFinite) /\
  ~ answered planar two_nodes batch_with_nan 0 /\
  ~ answered geodesic two_nodes batch_with_nan 0.
Proof.
  assert (Hp : method planar two_nodes batch_with_nan = Raise (ValueError NonFinite)).
  { unfold method. rewrite scipy_euclidean_method_non_finite; reflexivity. }
  assert (Hg : method geodesic two_nodes batch_with_nan = Raise (ValueError NonFinite)).
  { unfold method. rewrite sklearn_haversine_method_non_finite; reflexivity. }
  repeat split; auto.
  - intros (p' & col & id & H & _). rewrite Hp in H. discriminate.
  - intros (p' & col & id & H & _). rewrite Hg in H. discriminate.
Qed.

(** C3, amended.  When some query point of a batch has a non-finite
    coordinate, the run of either variant raises the library's
    [ValueError] for the whole batch: no query of the batch is answered
    and nothing is written to [parcels['node']]. *)
Theorem non_finite_query_fails_whole_batch
  (m : selector) (nodes : list node) (parcels : parcels_df) :
  forallb finite_point (map centroid (rows parcels)) = false ->
  (exists why, method m nodes parcels = Raise (ValueError why)) /\
  (nodes <> [] -> method m nodes parcels = Raise (ValueError NonFinite)) /\
  (forall i, ~ answered m nodes parcels i).
Proof.
  intros Hnf.
  assert (H : method m nodes parcels
              = Raise (ValueError match m, nodes with
                                  | geodesic, [] => EmptyArray
                                  | _, _ => NonFinite
                                  end)).
  { destruct m; unfold method.
    - rewrite scipy_euclidean_method_non_finite by assumption. reflexivity.
    - rewrite sklearn_haversine_method_non_finite by assumption.
      destruct nodes; reflexivity. }
  split; [eauto|]. split.
  - intros Hne. rewrite H. destruct m, nodes; try reflexivity. contradiction.
  - intros i (p' & col & id & H' & _). rewrite H in H'. discriminate.
Qed.

Lemma non_finite_query_fails_whole_batch_witness :
  (exists why, method geodesic two_nodes batch_with_nan = Raise (ValueError why)) /\
  (two_nodes <> [] ->
   method geodesic two_nodes batch_with_nan = Raise (ValueError NonFinite)) /\
  (forall i, ~ answered geodesic two_nodes batch_with_nan i).
Proof.
  apply (@non_finite_query_fails_whole_batch geodesic two_nodes batch_with_nan).
  reflexivity.
Defined.

(** ** An empty node table *)

Lemma load_and_merge_OK (f : files) (nodes : list node) (parcels : parcels_df) :
  load_and_merge f = OK (nodes, parcels) ->
  nodes = bay_area_full_strongly_nodes f /\
  pd.is_unique (map fst (parcels_joined_blocks f)) = true /\
  pd.is_unique (map osmid nodes) = true /\
  parcels = cell_7_8 (cell_6 (cell_5 (dropna_geometry (read_file (Parcels f))))
                             (parcels_joined_blocks f)).
Proof.
  unfold load_and_merge. intros H.
  inv_bind H as p2 H2. inv_bind H as pb H3. inv_bind H as ns H4.
  injection H as <- <-.
  unfold cell_2 in H2. inv_bind H2 as u Hu. injection H2 as <-.
  unfold cell_3 in H3. inv_bind H3 as u3 Hu3. injection H3 as <-.
  unfold cell_4 in H4. inv_bind H4 as u4 Hu4. injection H4 as <-.
  unfold py_assert in Hu3, Hu4.
  destruct (pd.is_unique (map fst (parcels_joined_blocks f))); [|discriminate].
  destruct (pd.is_unique (map osmid (bay_area_full_strongly_nodes f))); [|discriminate].
  auto.
Qed.

Lemma sklearn_haversine_method_empty_nodes (parcels : parcels_df) :
  sklearn_haversine_method [] parcels = Raise (ValueError EmptyArray).
Proof. reflexivity. Qed.

Lemma scipy_euclidean_method_empty_nodes (parcels : parcels_df) :
  rows parcels <> [] ->
  forallb finite_point (map centroid (rows parcels)) = true ->
  scipy_euclidean_method [] parcels = Raise IndexError.
Proof.
  intros Hne Hfp.
  destruct (@finite_rows_total (cols2 x y (rows parcels))) as [qs Hq].
  { rewrite cols2_xy_centroid. exact Hfp. }
  unfold scipy_euclidean_method, cell_9, scipy.cKDTree_init. simpl np.finite_rows.
  cbn [bind]. unfold cell_10, scipy.query. rewrite Hq, split_map. cbn [bind].
  destruct qs as [|q qs].
  - apply finite_rows_Forall2 in Hq. apply Forall2_length in Hq.
    unfold cols2 in Hq. rewrite length_map in Hq.
    destruct (rows parcels); [contradiction | discriminate].
  - reflexivity.
Qed.

(** C2, as the spec states it, fails for the planar variant: the k-d tree
    over an empty node table is built, with zero points, and a query
    against it runs and reports a missing neighbour. *)
Lemma empty_nodes_kdtree_is_built :
  build_index planar [] = OK (KDTree {| scipy.data := [] |}) /\
  scipy.n {| scipy.data := [] |} = O /\
  scipy.query {| scipy.data := [] |} [(Fin 0, Fin 0)] = OK ([PInf], [O]).
Proof. repeat split. Qed.

Lemma scipy_euclidean_method_nothing (parcels : parcels_df) :
  rows parcels = [] ->
  scipy_euclidean_method [] parcels
  = OK ([], [], {| rows := rows parcels; node_col := Some [] |}).
Proof.
  intros E. unfold scipy_euclidean_method, cell_9, cell_10, scipy.cKDTree_init,
    scipy.query, setitem_node.
  rewrite E. reflexivity.
Qed.

Lemma finite_rows_length (a : list point) (rs : list rpoint) :
  np.finite_rows a = Some rs -> length rs = length a.
Proof.
  intros H. apply finite_rows_Forall2 in H. symmetry. eapply Forall2_length; eassumption.
Qed.

Lemma map_const_length {A B C : Type} (c : C) (l : list A) (l' : list B) :
  length l = length l' -> map (fun _ => c) l = map (fun _ => c) l'.
Proof.
  revert l'; induction l as [|a l IH]; intros [|b l'] H; try discriminate;
    [reflexivity|].
  simpl. f_equal. apply IH. simpl in H. injection H; auto.
Qed.

(** A query against the tree over zero points: every point of a finite
    batch is answered with a missing neighbour. *)
Lemma query_empty_tree (qs : list point) :
  scipy.query {| scipy.data := [] |} qs
  = if forallb finite_point qs
    then OK (map (fun _ => PInf) qs, map (fun _ => O) qs)
    else Raise (ValueError NonFinite).
Proof.
  unfold scipy.query.
  destruct (forallb finite_point qs) eqn:Hf.
  - destruct (finite_rows_total _ Hf) as [rs Hr]. rewrite Hr, split_map.
    apply finite_rows_length in Hr.
    rewrite (map_const_length PInf qs rs), (map_const_length O qs rs)
      by (symmetry; exact Hr).
    reflexivity.
  - rewrite (finite_rows_None _ Hf). reflexivity.
Qed.

Lemma scipy_euclidean_method_on_empty_nodes (parcels : parcels_df) :
  scipy_euclidean_method [] parcels
  = if forallb finite_point (map centroid (rows parcels))
    then match rows parcels with
         | [] => OK ([], [], {| rows := []; node_col := Some [] |})
         | _ :: _ => Raise IndexError
         end
    else Raise (ValueError NonFinite).
Proof.
  destruct (forallb finite_point (map centroid (rows parcels))) eqn:Hf.
  - destruct (rows parcels) as [|p ps] eqn:Er.
    + rewrite scipy_euclidean_method_nothing by exact Er. rewrite Er. reflexivity.
    + apply scipy_euclidean_method_empty_nodes; rewrite Er; [discriminate | exact Hf].
  - apply scipy_euclidean_method_non_finite. exact Hf.
Qed.

(** C2, amended.  With an empty node table the ball tree is not built:
    its construction raises [ValueError] before its query.  The k-d tree
    is built over zero points; its query answers every point of a finite
    batch with a missing neighbour, infinite distance and position 0,
    and refuses a batch that holds a non-finite point; looking position 0
    up in the empty table raises [IndexError], so the euclidean method
    raises [IndexError] on a non-empty batch of finite points,
    [ValueError] on a batch that holds a non-finite point, and writes an
    empty column for an empty batch.  Either way the notebook stops with
    an exception and saves nothing. *)
Theorem empty_node_table_stops_the_run (f : files) :
  bay_area_full_strongly_nodes f = [] ->
  build_index geodesic [] = Raise (ValueError EmptyArray) /\
  (forall parcels, sklearn_haversine_method [] parcels = Raise (ValueError EmptyArray)) /\
  build_index planar [] = OK (KDTree {| scipy.data := [] |}) /\
  (forall qs,
      scipy.query {| scipy.data := [] |} qs
      = if forallb finite_point qs
        then OK (map (fun _ => PInf) qs, map (fun _ => O) qs)
        else Raise (ValueError NonFinite)) /\
  (forall i, pd.iloc_index osmid [] [i] = Raise IndexError) /\
  (forall parcels,
      scipy_euclidean_method [] parcels
      = if forallb finite_point (map centroid (rows parcels))
        then match rows parcels with
             | [] => OK ([], [], {| rows := []; node_col := Some [] |})
             | _ :: _ => Raise IndexError
             end
        else Raise (ValueError NonFinite)) /\
  exists e, notebook f = Raise e.
Proof.
  intros Hempty.
  split; [reflexivity|]. split; [exact sklearn_haversine_method_empty_nodes|].
  split; [reflexivity|]. split; [exact query_empty_tree|].
  split; [intros [|i]; reflexivity|].
  split; [exact scipy_euclidean_method_on_empty_nodes|].
  unfold notebook. destruct (load_and_merge f) as [[nodes parcels]|e] eqn:Hl;
    [|exists e; reflexivity].
  apply load_and_merge_OK in Hl as (-> & _). rewrite Hempty. cbn [bind].
  destruct (scipy_euclidean_method [] parcels) as [[[dist idx] p]|e];
    [|exists e; reflexivity].
  cbn [bind]. rewrite sklearn_haversine_method_empty_nodes.
  exists (ValueError EmptyArray). reflexivity.
Qed.

Lemma empty_node_table_stops_the_run_witness :
  build_index geodesic [] = Raise (ValueError EmptyArray) /\
  (forall parcels, sklearn_haversine_method [] parcels = Raise (ValueError EmptyArray)) /\
  build_index planar [] = OK (KDTree {| scipy.data := [] |}) /\
  (forall qs,
      scipy.query {| scipy.data := [] |} qs
      = if forallb finite_point qs
        then OK (map (fun _ => PInf) qs, map (fun _ => O) qs)
        else Raise (ValueError NonFinite)) /\
  (forall i, pd.iloc_index osmid [] [i] = Raise IndexError) /\
  (forall parcels,
      scipy_euclidean_method [] parcels
      = if forallb finite_point (map centroid (rows parcels))
        then match rows parcels with
             | [] => OK ([], [], {| rows := []; node_col := Some [] |})
             | _ :: _ => Raise IndexError
             end
        else Raise (ValueError NonFinite)) /\
  exists e,
    notebook {| Parcels := Parcels sample_files;
                parcels_joined_blocks := parcels_joined_blocks sample_files;
                bay_area_full_strongly_nodes := [] |} = Raise e.
Proof.
  apply (@empty_node_table_stops_the_run
           {| Parcels := Parcels sample_files;
              parcels_joined_blocks := parcels_joined_blocks sample_files;
              bay_area_full_strongly_nodes := [] |}).
  reflexivity.
Defined.

(** ** The block lookup join *)

Lemma is_unique_NoDup (keys : list Z) : pd.is_unique keys = true <-> NoDup keys.
Proof.
  induction keys as [|k rest IH]; simpl.
  - split; [constructor | reflexivity].
  - rewrite andb_true_iff, negb_true_iff, IH. split.
    + intros [Hk Hr]. constructor; [|assumption].
      intros Hin. assert (existsb (Z.eqb k) rest = true); [|congruence].
      apply existsb_exists. exists k. split; [assumption | apply Z.eqb_refl].
    + intros H. inversion H as [|? ? Hk Hr]; subst. split; [|assumption].
      destruct (existsb (Z.eqb k) rest) eqn:E; [|reflexivity].
      apply existsb_exists in E as (k' & Hin & Hk'). apply Z.eqb_eq in Hk'.
      subst k'. contradiction.
Qed.

Lemma map_fst_combine_eq {A B : Type} (l : list A) (l' : list B) :
  length l = length l' -> map fst (combine l l') = l.
Proof.
  revert l'; induction l as [|a l IH]; intros [|b l']; simpl; try discriminate; auto.
  intros [= E]. rewrite IH; auto.
Qed.

Lemma map_snd_combine_eq {A B : Type} (l : list A) (l' : list B) :
  length l = length l' -> map snd (combine l l') = l'.
Proof.
  revert l'; induction l as [|a l IH]; intros [|b l']; simpl; try discriminate; auto.
  intros [= E]. rewrite IH; auto.
Qed.

Lemma map_snd_filter {A B : Type} (g : B -> bool) (l : list (A * B)) :
  map snd (filter (fun r => g (snd r)) l) = filter g (map snd l).
Proof.
  induction l as [|[a b] l IH]; simpl; [reflexivity|].
  destruct (g b); simpl; rewrite IH; reflexivity.
Qed.

Lemma NoDup_map_fst_filter {A B : Type} (g : A * B -> bool) (l : list (A * B)) :
  NoDup (map fst l) -> NoDup (map fst (filter g l)).
Proof.
  induction l as [|r l IH]; simpl; intros H; [constructor|].
  inversion H as [|? ? Hr Hl]; subst.
  destruct (g r); simpl; [|auto].
  constructor; [|auto]. intros Hin. apply Hr.
  apply in_map_iff in Hin as (r' & E & Hin). apply filter_In in Hin as [Hin _].
  rewrite <- E. apply in_map. exact Hin.
Qed.

(** The assertion of cell 2 always holds: the rows carry their numbers. *)
Lemma cell_2_OK (shapes : list shape) :
  cell_2 shapes = OK (dropna_geometry (read_file shapes)).
Proof.
  unfold cell_2.
  assert (H : pd.is_unique (map fst (dropna_geometry (read_file shapes))) = true).
  { apply is_unique_NoDup. apply NoDup_map_fst_filter. unfold read_file.
    rewrite map_fst_combine_eq by (rewrite length_map, length_seq; reflexivity).
    apply Finite.Injective_map_NoDup; [|apply seq_NoDup].
    intros a b. apply Nat2Z.inj. }
  rewrite H. reflexivity.
Qed.

Lemma cell_5_dropna (shapes : list shape) :
  cell_5 (dropna_geometry (read_file shapes)) = filter has_geometry shapes.
Proof.
  unfold cell_5, dropna_geometry, read_file. rewrite map_snd_filter.
  rewrite map_snd_combine_eq by (rewrite length_map, length_seq; reflexivity).
  reflexivity.
Qed.

Lemma filter_absent_key (k : Z) (table : list (Z * string)) :
  ~ In k (map fst table) -> filter (fun r => Z.eqb (fst r) k) table = [].
Proof.
  induction table as [|[k' v] rest IH]; simpl; intros H; [reflexivity|].
  destruct (Z.eqb_spec k' k) as [->|_]; [exfalso; auto|]. apply IH. auto.
Qed.

Lemma filter_unique_key (k : Z) (table : list (Z * string)) :
  NoDup (map fst table) ->
  filter (fun r => Z.eqb (fst r) k) table
  = match lookup_block k table with
    | Some v => [(k, v)]
    | None => []
    end.
Proof.
  induction table as [|[k' v] rest IH]; simpl; intros H; [reflexivity|].
  inversion H as [|? ? Hk Hr]; subst.
  destruct (Z.eqb_spec k' k) as [->|_].
  - rewrite filter_absent_key by assumption. reflexivity.
  - apply IH; assumption.
Qed.

Lemma flat_map_singleton {A B : Type} (f : A -> list B) (g : A -> B) (l : list A) :
  (forall a, f a = [g a]) -> flat_map f l = map g l.
Proof.
  intros H. induction l as [|a l IH]; simpl; [reflexivity|].
  rewrite H, IH. reflexivity.
Qed.

Lemma merge_left_unique {A : Type} (key : A -> Z) (left : list A)
  (right : list (Z * string)) :
  NoDup (map fst right) ->
  pd.merge_left key left right = map (fun l => (l, lookup_block (key l) right)) left.
Proof.
  intros H. unfold pd.merge_left.
  apply flat_map_singleton. intros l. rewrite (@filter_unique_key _ _ H).
  destruct (lookup_block (key l) right); reflexivity.
Qed.

Lemma load_and_merge_rows (f : files) (nodes : list node) (parcels : parcels_df) :
  load_and_merge f = OK (nodes, parcels) ->
  node_col parcels = None /\
  map (fun p => (shp p, block_geoid p)) (rows parcels)
  = map (fun s => (s, lookup_block (PARCEL_ID s) (parcels_joined_blocks f)))
        (filter has_geometry (Parcels f)).
Proof.
  intros H. apply load_and_merge_OK in H as (_ & Hu & _ & ->).
  split; [reflexivity|].
  rewrite cell_5_dropna. unfold cell_6.
  rewrite merge_left_unique by (apply is_unique_NoDup; exact Hu).
  unfold cell_7_8. simpl rows. rewrite !map_map. reflexivity.
Qed.

Lemma load_and_merge_total (f : files) :
  pd.is_unique (map fst (parcels_joined_blocks f)) = true ->
  pd.is_unique (map osmid (bay_area_full_strongly_nodes f)) = true ->
  exists parcels,
    load_and_merge f = OK (bay_area_full_strongly_nodes f, parcels).
Proof.
  intros H3 H4. unfold load_and_merge. rewrite cell_2_OK. cbn [bind].
  unfold cell_3, cell_4. rewrite H3, H4. cbn [bind py_assert]. eauto.
Qed.

(** ** The whole notebook *)

Lemma sklearn_haversine_method_reads_rows (nodes : list node)
  (parcels parcels2 : parcels_df) :
  rows parcels2 = rows parcels ->
  sklearn_haversine_method nodes parcels2 = sklearn_haversine_method nodes parcels.
Proof.
  intros E. unfold sklearn_haversine_method, cell_11. cbv iota zeta beta.
  rewrite E. destruct (cell_12 (map np.deg2rad2 (cols2 y x nodes))); [|reflexivity].
  cbn [bind]. apply cell_13_reads_rows. exact E.
Qed.

Lemma notebook_OK (f : files) (out : list saved) :
  notebook f = OK out ->
  exists nodes parcels planar_labels labels,
    load_and_merge f = OK (nodes, parcels) /\
    method planar nodes parcels
      = OK {| rows := rows parcels; node_col := Some planar_labels |} /\
    method geodesic nodes parcels
      = OK {| rows := rows parcels; node_col := Some labels |} /\
    length labels = length (rows parcels) /\
    out = map (fun r => {| parcel_id := PARCEL_ID (shp (fst r));
                           block_id := block_geoid (fst r);
                           node_id := snd r |})
              (combine (rows parcels) labels).
Proof.
  unfold notebook. intros H.
  inv_bind H as np0 Hload. destruct np0 as [nodes parcels].
  inv_bind H as r1 H1. destruct r1 as [[dist idx] p1].
  inv_bind H as r2 H2. destruct r2 as [idx2 p2].
  pose proof (scipy_euclidean_method_OK _ _ H1)
    as (data1 & l1 & _ & _ & Ep1 & _).
  assert (Erows : rows p1 = rows parcels) by (rewrite Ep1; reflexivity).
  rewrite (@sklearn_haversine_method_reads_rows nodes parcels p1 Erows) in H2.
  pose proof (sklearn_haversine_method_OK _ _ H2)
    as (data2 & l2 & _ & _ & Ep2 & Hlen & _).
  exists nodes, parcels, l1, l2.
  split; [exact Hload|]. split; [unfold method; rewrite H1, Ep1; reflexivity|].
  split; [unfold method; rewrite H2, Ep2; reflexivity|].
  split; [exact Hlen|].
  rewrite Ep2 in H. unfold cell_14 in H. simpl in H. injection H as <-. reflexivity.
Qed.

(** C9.  When the notebook runs through, both methods have run on the
    merged tables, and the column [node_id] it saves is the column the
    haversine method computes from the merged tables alone: the labels
    the euclidean method wrote before it are overwritten, none of them
    is read. *)
Theorem saved_node_is_geodesic (f : files) (out : list saved) :
  notebook f = OK out ->
  exists nodes parcels planar_labels labels,
    load_and_merge f = OK (nodes, parcels) /\
    method planar nodes parcels
      = OK {| rows := rows parcels; node_col := Some planar_labels |} /\
    method geodesic nodes parcels
      = OK {| rows := rows parcels; node_col := Some labels |} /\
    map node_id out = labels.
Proof.
  intros H.
  apply notebook_OK in H as (nodes & parcels & l1 & l2 & Hl & Hp & Hg & Hlen & ->).
  exists nodes, parcels, l1, l2.
  assert (E : map node_id
                (map (fun r => {| parcel_id := PARCEL_ID (shp (fst r));
                                  block_id := block_geoid (fst r);
                                  node_id := snd r |})
                     (combine (rows parcels) l2)) = l2).
  { rewrite map_map. simpl. apply map_snd_combine_eq. symmetry; exact Hlen. }
  repeat split; auto.
Qed.

(** C10.  Cells 2 to 8 succeed whenever the two asserted indexes are
    unique, whether or not the lookup table has a row for every parcel.
    The merged [parcels] then has one row per parcel of the shapefile
    that has a geometry, in the same order, with the block the lookup
    table gives for the parcel, or a missing value when the table has no
    row for it; and when the notebook runs through, the saved table has
    those same rows with those same block ids. *)
Theorem block_id_left_join (f : files) :
  (pd.is_unique (map fst (parcels_joined_blocks f)) = true ->
   pd.is_unique (map osmid (bay_area_full_strongly_nodes f)) = true ->
   exists parcels, load_and_merge f = OK (bay_area_full_strongly_nodes f, parcels)) /\
  (forall nodes parcels,
      load_and_merge f = OK (nodes, parcels) ->
      map (fun p => (shp p, block_geoid p)) (rows parcels)
      = map (fun s => (s, lookup_block (PARCEL_ID s) (parcels_joined_blocks f)))
            (filter has_geometry (Parcels f))) /\
  (forall out,
      notebook f = OK out ->
      map (fun r => (parcel_id r, block_id r)) out
      = map (fun s => (PARCEL_ID s, lookup_block (PARCEL_ID s) (parcels_joined_blocks f)))
            (filter has_geometry (Parcels f))).
Proof.
  split; [apply load_and_merge_total|].
  split; [intros nodes parcels Hl; apply (load_and_merge_rows _ Hl)|].
  intros out H.
  apply notebook_OK in H as (nodes & parcels & l1 & l2 & Hl & _ & _ & Hlen & ->).
  destruct (load_and_merge_rows _ Hl) as [_ Hrows].
  rewrite map_map. simpl.
  transitivity (map (fun p => (PARCEL_ID (shp p), block_geoid p))
                    (map fst (combine (rows parcels) l2))).
  { rewrite map_map. reflexivity. }
  rewrite map_fst_combine_eq by (symmetry; exact Hlen).
  transitivity (map (fun sb : shape * option string => (PARCEL_ID (fst sb), snd sb))
                    (map (fun p => (shp p, block_geoid p)) (rows parcels))).
  { rewrite map_map. reflexivity. }
  rewrite Hrows, map_map. reflexivity.
Qed.

Lemma sample_run :
  notebook sample_files
  = OK [ {| parcel_id := 7; block_id := Some "060014001001000"%string; node_id := 1 |};
         {| parcel_id := 9; block_id := None; node_id := 1 |} ].
Proof. reflexivity. Qed.

Lemma notebook_run (f : files) (nodes : list node) (parcels : parcels_df)
  (planar_labels labels : list Z) :
  load_and_merge f = OK (nodes, parcels) ->
  method planar nodes parcels
    = OK {| rows := rows parcels; node_col := Some planar_labels |} ->
  method geodesic nodes parcels
    = OK {| rows := rows parcels; node_col := Some labels |} ->
  notebook f
  = OK (map (fun r => {| parcel_id := PARCEL_ID (shp (fst r));
                         block_id := block_geoid (fst r);
                         node_id := snd r |})
            (combine (rows parcels) labels)).
Proof.
  intros Hl Hp Hg. unfold notebook. rewrite Hl. cbn [bind].
  unfold method in Hp, Hg.
  inv_bind Hp as r1 H1. destruct r1 as [[dist idx] p1]. injection Hp as ->.
  inv_bind Hg as r2 H2. destruct r2 as [idx2 p2]. injection Hg as ->.
  rewrite H1. cbn [bind].
  rewrite (@sklearn_haversine_method_reads_rows nodes parcels
             {| rows := rows parcels; node_col := Some planar_labels |} eq_refl).
  rewrite H2. reflexivity.
Qed.

(** ** Great-circle distance *)

Lemma asin_nonneg (v : R) : (0 <= v)%R -> (0 <= asin v)%R.
Proof.
  intros Hv. unfold asin.
  destruct (Rle_dec v (-1)) as [H1|H1]; [lra|].
  destruct (Rle_dec 1 v) as [H2|H2]; [pose proof PI_RGT_0; lra|].
  assert (Hs : (0 < sqrt (1 - v²))%R).
  { apply sqrt_lt_R0. unfold Rsqr. nra. }
  destruct (Req_dec v 0) as [->|Hv0].
  - unfold Rdiv. rewrite Rmult_0_l, atan_0. lra.
  - left. rewrite <- atan_0. apply atan_increasing.
    apply Rdiv_lt_0_compat; lra.
Qed.

Lemma haversine_nonneg (a b : rpoint) : (0 <= haversine a b)%R.
Proof.
  unfold haversine.
  apply Rmult_le_pos; [lra|]. apply asin_nonneg, sqrt_pos.
Qed.

Lemma sin_cos_sqr (u : R) : (sin u * sin u + cos u * cos u = 1)%R.
Proof. pose proof (sin2_cos2 u) as H. unfold Rsqr in H. exact H. Qed.

Lemma cos_sum_diff (p q : R) :
  (cos (p + q) * cos (p - q) = cos p * cos p - sin q * sin q)%R.
Proof.
  rewrite cos_plus, cos_minus.
  pose proof (sin_cos_sqr p) as H1. pose proof (sin_cos_sqr q) as H2.
  nra.
Qed.

Lemma cos_cos_half (u v : R) :
  (cos u * cos v
   = cos ((u + v) / 2) * cos ((u + v) / 2) - sin ((u - v) / 2) * sin ((u - v) / 2))%R.
Proof.
  rewrite <- cos_sum_diff. f_equal; f_equal; lra.
Qed.

(** The quantity under the square root of the haversine formula lies
    between 0 and 1, whatever the two rows. *)
Lemma haversine_arg_bounds (a b : rpoint) :
  (0 <= sqr (sin ((fst a - fst b) / 2))
        + cos (fst a) * cos (fst b) * sqr (sin ((snd a - snd b) / 2)) <= 1)%R.
Proof.
  unfold sqr. rewrite cos_cos_half.
  pose proof (sin_cos_sqr ((fst a + fst b) / 2)) as H1.
  pose proof (sin_cos_sqr ((fst a - fst b) / 2)) as H2.
  pose proof (sin_cos_sqr ((snd a - snd b) / 2)) as H3.
  set (S := sin ((fst a - fst b) / 2)) in *.
  set (C := cos ((fst a + fst b) / 2)) in *.
  set (T := sin ((snd a - snd b) / 2)) in *.
  set (S' := cos ((fst a - fst b) / 2)) in *.
  set (C' := sin ((fst a + fst b) / 2)) in *.
  set (T' := cos ((snd a - snd b) / 2)) in *.
  assert (0 <= S * S <= 1)%R by nra.
  assert (0 <= C * C <= 1)%R by nra.
  assert (0 <= T * T <= 1)%R by nra.
  replace (S * S + (C * C - S * S) * (T * T))%R
    with (S * S * (1 - T * T) + C * C * (T * T))%R by ring.
  split; nra.
Qed.

Lemma haversine_range (a b : rpoint) : (0 <= haversine a b <= PI)%R.
Proof.
  split; [apply haversine_nonneg|].
  unfold haversine.
  pose proof (asin_bound (sqrt (sqr (sin ((fst a - fst b) / 2))
        + cos (fst a) * cos (fst b) * sqr (sin ((snd a - snd b) / 2))))). lra.
Qed.

(** The haversine formula gives the central angle between the two
    places: its cosine is the one of the spherical law of cosines. *)
Lemma haversine_central_angle (a b : rpoint) :
  cos (haversine a b)
  = (sin (fst a) * sin (fst b) + cos (fst a) * cos (fst b) * cos (snd a - snd b))%R.
Proof.
  pose proof (haversine_arg_bounds a b) as [H0 H1].
  unfold haversine. rewrite cos_2a_sin.
  set (h := (sqr (sin ((fst a - fst b) / 2))
        + cos (fst a) * cos (fst b) * sqr (sin ((snd a - snd b) / 2)))%R) in *.
  assert (Hs : (0 <= sqrt h <= 1)%R).
  { split; [apply sqrt_pos|]. rewrite <- sqrt_1. apply sqrt_le_1_alt. exact H1. }
  rewrite sin_asin by lra.
  replace (1 - 2 * sqrt h * sqrt h)%R with (1 - 2 * (sqrt h * sqrt h))%R by ring.
  rewrite sqrt_sqrt by exact H0.
  unfold h, sqr.
  assert (E2 : (cos (snd a - snd b)
               = 1 - 2 * sin ((snd a - snd b) / 2) * sin ((snd a - snd b) / 2))%R).
  { rewrite <- cos_2a_sin. f_equal. lra. }
  rewrite E2.
  assert (E : (cos (fst a) * cos (fst b) + sin (fst a) * sin (fst b)
              = 1 - 2 * sin ((fst a - fst b) / 2) * sin ((fst a - fst b) / 2))%R).
  { rewrite <- cos_minus, <- cos_2a_sin. f_equal. lra. }
  lra.
Qed.

(** ** Near the pole *)

Lemma haversine_pole_pole : haversine pole pole_180 = 0%R.
Proof.
  unfold haversine, pole, pole_180, sqr; simpl fst; simpl snd.
  replace ((90 * PI / 180 - 90 * PI / 180) / 2)%R with 0%R by lra.
  replace (90 * PI / 180)%R with (PI / 2)%R by lra.
  rewrite sin_0, cos_PI2.
  replace (0 * 0 + 0 * 0 *
           (sin ((0 * PI / 180 - 180 * PI / 180) / 2) *
            sin ((0 * PI / 180 - 180 * PI / 180) / 2)))%R with 0%R by ring.
  rewrite sqrt_0, asin_0. ring.
Qed.

Lemma haversine_pole_south : haversine pole south_of_pole = (PI / 180)%R.
Proof.
  pose proof PI_RGT_0 as Hpi.
  unfold haversine, pole, south_of_pole, sqr; simpl fst; simpl snd.
  replace ((90 * PI / 180 - 89 * PI / 180) / 2)%R with (PI / 360)%R by lra.
  replace (90 * PI / 180)%R with (PI / 2)%R by lra.
  rewrite cos_PI2.
  replace (sin (PI / 360) * sin (PI / 360) +
           0 * cos (89 * PI / 180) *
           (sin ((0 * PI / 180 - 0 * PI / 180) / 2) *
            sin ((0 * PI / 180 - 0 * PI / 180) / 2)))%R
    with (sin (PI / 360) * sin (PI / 360))%R by ring.
  rewrite sqrt_square by (apply sin_ge_0; lra).
  rewrite asin_sin by lra. lra.
Qed.

Lemma polar_haversine_nearest :
  nearest (haversine pole) (@cons rpoint pole_180 (@cons rpoint south_of_pole nil))
  = Some (O, haversine pole pole_180).
Proof.
  eapply nearest_head; [apply nearest_one|].
  rewrite haversine_pole_pole, haversine_pole_south.
  pose proof PI_RGT_0. lra.
Qed.

Lemma polar_geodesic_run :
  sklearn_haversine_method polar_nodes polar_parcel
  = OK ([[O]], {| rows := rows polar_parcel; node_col := Some [1%Z] |}).
Proof.
  pose proof polar_haversine_nearest as E.
  unfold pole, pole_180, south_of_pole in E.
  unfold sklearn_haversine_method, cell_11, cell_12, cell_13,
    sklearn.BallTree_init, sklearn.query, sklearn.check_array.
  cbn [polar_nodes polar_parcel mk_frame rows cols2 map np.finite_rows np.finite_row
       np.deg2rad2 np.deg2rad mk_parcel mk_node x y parcel_XY node_XY node_x node_y
       centroid fst snd bind mapM sklearn.data sklearn.dist_metric distance].
  rewrite E. reflexivity.
Qed.

Lemma polar_planar_nearest :
  nearest (euclidean (0, 90)%R) (@cons rpoint (180, 90)%R (@cons rpoint (0, 89)%R nil))
  = Some (1%nat, euclidean (0, 90)%R (0, 89)%R).
Proof.
  eapply nearest_tail; [apply nearest_one|].
  unfold euclidean, sqr; simpl fst; simpl snd.
  apply sqrt_lt_1_alt. lra.
Qed.

Lemma polar_planar_run :
  scipy_euclidean_method polar_nodes polar_parcel
  = OK ([Fin (euclidean (0, 90)%R (0, 89)%R)], [1%nat],
        {| rows := rows polar_parcel; node_col := Some [2%Z] |}).
Proof.
  unfold scipy_euclidean_method, cell_9, cell_10, scipy.cKDTree_init, scipy.query.
  cbn [polar_nodes polar_parcel mk_frame rows cols2 map np.finite_rows np.finite_row
       mk_parcel mk_node x y parcel_XY node_XY node_x node_y centroid fst snd bind].
  unfold scipy.query1. cbn [scipy.data]. rewrite polar_planar_nearest. reflexivity.
Qed.

Lemma polar_notebook_run :
  notebook polar_files = OK [ {| parcel_id := 7; block_id := None; node_id := 1 |} ].
Proof.
  assert (Hl : load_and_merge polar_files = OK (polar_nodes, polar_parcel))
    by reflexivity.
  rewrite (@notebook_run polar_files polar_nodes polar_parcel [2%Z] [1%Z] Hl).
  - reflexivity.
  - unfold method. rewrite polar_planar_run. reflexivity.
  - unfold method. rewrite polar_geodesic_run. reflexivity.
Qed.

Lemma saved_node_is_geodesic_witness :
  exists nodes parcels planar_labels labels,
    load_and_merge polar_files = OK (nodes, parcels) /\
    method planar nodes parcels
      = OK {| rows := rows parcels; node_col := Some planar_labels |} /\
    method geodesic nodes parcels
      = OK {| rows := rows parcels; node_col := Some labels |} /\
    map node_id [ {| parcel_id := 7; block_id := None; node_id := 1 |} ] = labels.
Proof.
  exact (@saved_node_is_geodesic polar_files _ polar_notebook_run).
Defined.

Lemma block_id_left_join_witness :
  map (fun r => (parcel_id r, block_id r))
      [ {| parcel_id := 7; block_id := Some "060014001001000"%string; node_id := 1 |};
        {| parcel_id := 9; block_id := None; node_id := 1 |} ]
  = map (fun s => (PARCEL_ID s, lookup_block (PARCEL_ID s) (parcels_joined_blocks sample_files)))
        (filter has_geometry (Parcels sample_files)).
Proof.
  exact (proj2 (proj2 (@block_id_left_join sample_files)) _ sample_run).
Defined.

(** ** Degrees to radians, and the metric of the ball tree *)

Lemma radians_row (p : point) (r : rpoint) :
  np.finite_row (np.deg2rad2 (snd p, fst p)) = Some r ->
  exists lng lat,
    p = (Fin lng, Fin lat) /\ r = ((lat * PI / 180)%R, (lng * PI / 180)%R).
Proof.
  destruct p as [[lng| | |] [lat| | |]]; simpl; intros H; try discriminate.
  injection H as <-. eauto.
Qed.

Lemma radians_rows {A : Type} `{XY A} (df : list A) (rs : list rpoint) :
  np.finite_rows (map np.deg2rad2 (cols2 y x df)) = Some rs ->
  Forall2 (fun r q => exists lng lat,
               (x r, y r) = (Fin lng, Fin lat) /\
               q = ((lat * PI / 180)%R, (lng * PI / 180)%R))
          df rs.
Proof.
  intros Hr. apply finite_rows_Forall2 in Hr. unfold cols2 in Hr.
  rewrite map_map in Hr. apply Forall2_map_l in Hr.
  eapply Forall2_impl; [|exact Hr].
  intros r q Hq. apply (radians_row (x r, y r)). exact Hq.
Qed.

(** The haversine method, cell by cell. *)
Lemma sklearn_haversine_method_cells (nodes : list node) (parcels : parcels_df)
  (idx : list (list nat)) (parcels' : parcels_df) :
  sklearn_haversine_method nodes parcels = OK (idx, parcels') ->
  exists tree,
    cell_12 (fst (cell_11 nodes parcels)) = OK tree /\
    sklearn.query tree (snd (cell_11 nodes parcels)) = OK idx.
Proof.
  unfold sklearn_haversine_method, cell_11. cbv iota zeta beta. intros H.
  inv_bind H as tree Ht. exists tree. split; [exact Ht|].
  unfold cell_13 in H. inv_bind H as idx2 Hi2.
  inv_bind H as idx0 Hi0. inv_bind H as labels Ha.
  inv_bind H as df Hset. injection H as <- _. exact Hi2.
Qed.

Lemma euclidean_pole_pole : euclidean pole pole_180 = PI.
Proof.
  pose proof PI_RGT_0 as Hpi.
  unfold euclidean, pole, pole_180, sqr; simpl fst; simpl snd.
  replace ((90 * PI / 180 - 90 * PI / 180) * (90 * PI / 180 - 90 * PI / 180) +
           (0 * PI / 180 - 180 * PI / 180) * (0 * PI / 180 - 180 * PI / 180))%R
    with (PI * PI)%R by lra.
  apply sqrt_square. lra.
Qed.

Lemma euclidean_pole_south : euclidean pole south_of_pole = (PI / 180)%R.
Proof.
  pose proof PI_RGT_0 as Hpi.
  unfold euclidean, pole, south_of_pole, sqr; simpl fst; simpl snd.
  replace ((90 * PI / 180 - 89 * PI / 180) * (90 * PI / 180 - 89 * PI / 180) +
           (0 * PI / 180 - 0 * PI / 180) * (0 * PI / 180 - 0 * PI / 180))%R
    with ((PI / 180) * (PI / 180))%R by lra.
  apply sqrt_square. lra.
Qed.

(** C5.  In the haversine method every node and every centroid is handed
    to the ball tree as the row (latitude, longitude) in radians of its
    (longitude, latitude) in degrees: the tree is built over those rows
    of the nodes and queried with those rows of the centroids.  The tree
    carries the haversine metric, and that metric is the great-circle
    distance: the angle between 0 and pi whose cosine the spherical law
    of cosines gives.  It is not the straight-line distance on the same
    rows: the pole written with two longitudes 180 degrees apart is one
    place at great-circle distance 0 and straight-line distance pi, and
    the method labels a parcel at the pole with the node at the pole
    rather than with a node one degree south, which is nearer on the
    rows. *)
Theorem geodesic_uses_radians_and_haversine
  (nodes : list node) (parcels : parcels_df)
  (idx : list (list nat)) (parcels' : parcels_df) :
  sklearn_haversine_method nodes parcels = OK (idx, parcels') ->
  (exists data queries,
      cell_12 (fst (cell_11 nodes parcels))
        = OK {| sklearn.data := data; sklearn.dist_metric := Haversine |} /\
      Forall2 (fun n r => exists lng lat,
                   location_of_node n = (Fin lng, Fin lat) /\
                   r = ((lat * PI / 180)%R, (lng * PI / 180)%R))
              nodes data /\
      sklearn.check_array (snd (cell_11 nodes parcels)) = OK queries /\
      Forall2 (fun p q => exists lng lat,
                   centroid p = (Fin lng, Fin lat) /\
                   q = ((lat * PI / 180)%R, (lng * PI / 180)%R))
              (rows parcels) queries /\
      sklearn.query {| sklearn.data := data; sklearn.dist_metric := Haversine |}
                    (snd (cell_11 nodes parcels)) = OK idx) /\
  (forall a b : rpoint,
      (0 <= distance Haversine a b <= PI)%R /\
      cos (distance Haversine a b)
      = (sin (fst a) * sin (fst b)
         + cos (fst a) * cos (fst b) * cos (snd a - snd b))%R) /\
  (distance Haversine pole pole_180 = 0%R /\
   distance Haversine pole south_of_pole = (PI / 180)%R /\
   distance Euclidean pole pole_180 = PI /\
   distance Euclidean pole south_of_pole = (PI / 180)%R /\
   sklearn_haversine_method polar_nodes polar_parcel
   = OK ([[O]], {| rows := rows polar_parcel; node_col := Some [1%Z] |})).
Proof.
  intros H. split; [|split].
  - destruct (sklearn_haversine_method_cells _ _ H) as (tree & Ht & Hq).
    apply sklearn_haversine_method_OK in H as (data & labels & Ht' & Hd & _).
    rewrite Ht' in Ht. injection Ht as <-.
    pose proof Hq as Hq'. unfold sklearn.query in Hq'. inv_bind Hq' as queries Hc.
    exists data, queries.
    split; [exact Ht'|]. split.
    { eapply Forall2_impl; [|exact Hd].
      intros n r Hr. apply (radians_row (location_of_node n)). exact Hr. }
    split; [exact Hc|]. split; [|exact Hq].
    apply check_array_OK in Hc as [_ Hc]. unfold cell_11, snd in Hc.
    apply radians_rows in Hc.
    eapply Forall2_impl; [|exact Hc].
    intros p q (lng & lat & Ep & ->). rewrite centroid_xy in Ep. eauto.
  - intros a b. split; [apply haversine_range | apply haversine_central_angle].
  - split; [exact haversine_pole_pole|]. split; [exact haversine_pole_south|].
    split; [exact euclidean_pole_pole|]. split; [exact euclidean_pole_south|].
    exact polar_geodesic_run.
Qed.

Lemma geodesic_uses_radians_and_haversine_witness :
  (exists data queries,
      cell_12 (fst (cell_11 polar_nodes polar_parcel))
        = OK {| sklearn.data := data; sklearn.dist_metric := Haversine |} /\
      Forall2 (fun n r => exists lng lat,
                   location_of_node n = (Fin lng, Fin lat) /\
                   r = ((lat * PI / 180)%R, (lng * PI / 180)%R))
              polar_nodes data /\
      sklearn.check_array (snd (cell_11 polar_nodes polar_parcel)) = OK queries /\
      Forall2 (fun p q => exists lng lat,
                   centroid p = (Fin lng, Fin lat) /\
                   q = ((lat * PI / 180)%R, (lng * PI / 180)%R))
              (rows polar_parcel) queries /\
      sklearn.query {| sklearn.data := data; sklearn.dist_metric := Haversine |}
                    (snd (cell_11 polar_nodes polar_parcel)) = OK [[O]]) /\
  (forall a b : rpoint,
      (0 <= distance Haversine a b <= PI)%R /\
      cos (distance Haversine a b)
      = (sin (fst a) * sin (fst b)
         + cos (fst a) * cos (fst b) * cos (snd a - snd b))%R) /\
  (distance Haversine pole pole_180 = 0%R /\
   distance Haversine pole south_of_pole = (PI / 180)%R /\
   distance Euclidean pole pole_180 = PI /\
   distance Euclidean pole south_of_pole = (PI / 180)%R /\
   sklearn_haversine_method polar_nodes polar_parcel
   = OK ([[O]], {| rows := rows polar_parcel; node_col := Some [1%Z] |})).
Proof.
  exact (@geodesic_uses_radians_and_haversine polar_nodes polar_parcel _ _
           polar_geodesic_run).
Defined.

(** ** What decides the outcome of a run *)

Lemma load_and_merge_eq (f : files) :
  load_and_merge f
  = if pd.is_unique (map fst (parcels_joined_blocks f))
    then if pd.is_unique (map osmid (bay_area_full_strongly_nodes f))
         then OK (bay_area_full_strongly_nodes f, merged_parcels f)
         else Raise AssertionError
    else Raise AssertionError.
Proof.
  unfold load_and_merge. rewrite cell_2_OK. cbn [bind]. unfold cell_3, cell_4.
  destruct (pd.is_unique (map fst (parcels_joined_blocks f))); [|reflexivity].
  cbn [py_assert bind].
  destruct (pd.is_unique (map osmid (bay_area_full_strongly_nodes f))); reflexivity.
Qed.

Lemma merged_parcels_centroids (f : files) :
  pd.is_unique (map fst (parcels_joined_blocks f)) = true ->
  map centroid (rows (merged_parcels f)) = centroids_of f.
Proof.
  intros Hu. unfold merged_parcels, centroids_of.
  rewrite cell_5_dropna. unfold cell_6.
  rewrite merge_left_unique by (apply is_unique_NoDup; exact Hu).
  unfold cell_7_8. simpl rows. rewrite !map_map. reflexivity.
Qed.

Lemma map_eq_nil_iff {A B : Type} (g : A -> B) (l : list A) :
  map g l = [] <-> l = [].
Proof. destruct l; simpl; split; intros H; try reflexivity; discriminate. Qed.

Lemma scipy_euclidean_method_nodes_non_finite (nodes : list node) (parcels : parcels_df) :
  forallb finite_point (map location_of_node nodes) = false ->
  scipy_euclidean_method nodes parcels = Raise (ValueError NonFinite).
Proof.
  intros Hnf. unfold scipy_euclidean_method, cell_9, scipy.cKDTree_init.
  change (cols2 x y nodes) with (map location_of_node nodes).
  rewrite (finite_rows_None _ Hnf). reflexivity.
Qed.

Lemma scipy_euclidean_method_no_query (nodes : list node) (parcels : parcels_df) :
  forallb finite_point (map location_of_node nodes) = true ->
  rows parcels = [] ->
  scipy_euclidean_method nodes parcels
  = OK ([], [], {| rows := rows parcels; node_col := Some [] |}).
Proof.
  intros Hfn E.
  destruct (@finite_rows_total (cols2 x y nodes)) as [data Hd]; [exact Hfn|].
  unfold scipy_euclidean_method, cell_9, cell_10, scipy.cKDTree_init,
    scipy.query, setitem_node.
  rewrite Hd, E. reflexivity.
Qed.

Lemma cell_12_total (nodes : list node) :
  nodes <> [] ->
  forallb finite_point (map location_of_node nodes) = true ->
  exists data,
    cell_12 (map np.deg2rad2 (cols2 y x nodes))
    = OK {| sklearn.data := data; sklearn.dist_metric := Haversine |}.
Proof.
  intros Hne Hfn.
  destruct (@finite_rows_total (map np.deg2rad2 (cols2 y x nodes))) as [data Hd].
  { rewrite radians_finite. exact Hfn. }
  exists data. unfold cell_12, sklearn.BallTree_init.
  assert (Hc : sklearn.check_array (map np.deg2rad2 (cols2 y x nodes)) = OK data).
  { apply check_array_OK. split; [|exact Hd].
    destruct nodes; [contradiction | discriminate]. }
  rewrite Hc. reflexivity.
Qed.

Lemma sklearn_haversine_method_no_query (nodes : list node) (parcels : parcels_df) :
  nodes <> [] ->
  forallb finite_point (map location_of_node nodes) = true ->
  rows parcels = [] ->
  sklearn_haversine_method nodes parcels = Raise (ValueError EmptyArray).
Proof.
  intros Hne Hfn E. destruct (cell_12_total Hne Hfn) as [data Hd].
  unfold sklearn_haversine_method, cell_11. cbv iota zeta beta.
  rewrite Hd. cbn [bind]. unfold cell_13, sklearn.query. rewrite E. reflexivity.
Qed.

(** After cells 2 to 8 the rest of the notebook, on the merged table. *)
Lemma notebook_after_merge (f : files) :
  pd.is_unique (map fst (parcels_joined_blocks f)) = true ->
  pd.is_unique (map osmid (bay_area_full_strongly_nodes f)) = true ->
  notebook f
  = ('(_, _, parcels) <-
       scipy_euclidean_method (bay_area_full_strongly_nodes f) (merged_parcels f) ;;
     '(_, parcels) <-
       sklearn_haversine_method (bay_area_full_strongly_nodes f) parcels ;;
     cell_14 parcels).
Proof.
  intros H3 H4. unfold notebook. rewrite load_and_merge_eq, H3, H4. reflexivity.
Qed.

Lemma forallb_false_or_true {A : Type} (g : A -> bool) (l : list A) :
  forallb g l = true \/ forallb g l = false.
Proof. destruct (forallb g l); auto. Qed.

(** The exception a run ends with, read off the input tables, when the
    tables call for one. *)
Lemma notebook_outcome (f : files) :
  let lookup_ok := pd.is_unique (map fst (parcels_joined_blocks f)) in
  let nodes_ok := pd.is_unique (map osmid (bay_area_full_strongly_nodes f)) in
  let nodes := bay_area_full_strongly_nodes f in
  (lookup_ok = false -> notebook f = Raise AssertionError) /\
  (lookup_ok = true -> nodes_ok = false -> notebook f = Raise AssertionError) /\
  (lookup_ok = true -> nodes_ok = true ->
   forallb finite_point (node_locations f) = false ->
   notebook f = Raise (ValueError NonFinite)) /\
  (lookup_ok = true -> nodes_ok = true ->
   forallb finite_point (node_locations f) = true ->
   forallb finite_point (centroids_of f) = false ->
   notebook f = Raise (ValueError NonFinite)) /\
  (lookup_ok = true -> nodes_ok = true ->
   forallb finite_point (centroids_of f) = true ->
   nodes = [] -> centroids_of f <> [] ->
   notebook f = Raise IndexError) /\
  (lookup_ok = true -> nodes_ok = true ->
   forallb finite_point (node_locations f) = true ->
   centroids_of f = [] ->
   notebook f = Raise (ValueError EmptyArray)) /\
  (lookup_ok = true -> nodes_ok = true ->
   forallb finite_point (node_locations f) = true ->
   forallb finite_point (centroids_of f) = true ->
   nodes <> [] -> centroids_of f <> [] ->
   exists out, notebook f = OK out).
Proof.
  cbv zeta. unfold node_locations.
  split; [|split].
  { intros H. unfold notebook. rewrite load_and_merge_eq, H. reflexivity. }
  { intros H3 H4. unfold notebook. rewrite load_and_merge_eq, H3, H4. reflexivity. }
  split; [|split; [|split; [|split]]]; intros H3 H4.
  - intros Hnf. rewrite (@notebook_after_merge f H3 H4).
    rewrite scipy_euclidean_method_nodes_non_finite by exact Hnf. reflexivity.
  - intros _ Hnf. rewrite (@notebook_after_merge f H3 H4).
    rewrite scipy_euclidean_method_non_finite; [reflexivity|].
    rewrite (@merged_parcels_centroids f H3). exact Hnf.
  - intros Hfp Hn Hc. rewrite (@notebook_after_merge f H3 H4), Hn.
    rewrite scipy_euclidean_method_empty_nodes; [reflexivity| |].
    + intros E. apply Hc. rewrite <- (@merged_parcels_centroids f H3), E. reflexivity.
    + rewrite (@merged_parcels_centroids f H3). exact Hfp.
  - intros Hfn Hc. rewrite (@notebook_after_merge f H3 H4).
    assert (Er : rows (merged_parcels f) = []).
    { apply (map_eq_nil_iff centroid). rewrite (@merged_parcels_centroids f H3). exact Hc. }
    destruct (bay_area_full_strongly_nodes f) as [|n ns] eqn:En.
    + rewrite scipy_euclidean_method_nothing by exact Er. reflexivity.
    + destruct (@scipy_euclidean_method_total (n :: ns) (merged_parcels f))
        as [[[d i] p1] H1]; [discriminate | exact Hfn | rewrite Er; reflexivity |].
      rewrite H1. cbn [bind].
      destruct (scipy_euclidean_method_OK _ _ H1) as (_ & l1 & _ & _ & -> & _).
      rewrite sklearn_haversine_method_no_query; [reflexivity|discriminate|exact Hfn|exact Er].
  - intros Hfn Hfp Hne Hc.
    assert (Hfr : forallb finite_point (map centroid (rows (merged_parcels f))) = true)
      by (rewrite (@merged_parcels_centroids f H3); exact Hfp).
    assert (Hr : rows (merged_parcels f) <> []).
    { intros E. apply Hc. rewrite <- (@merged_parcels_centroids f H3), E. reflexivity. }
    destruct (@method_total planar _ (merged_parcels f) Hne Hfn (fun _ => Hr) Hfr)
      as [p1 H1].
    destruct (@method_total geodesic _ (merged_parcels f) Hne Hfn (fun _ => Hr) Hfr)
      as [p2 H2].
    destruct (method_sound _ _ _ H1) as (l1 & -> & _ & _).
    destruct (method_sound _ _ _ H2) as (l2 & -> & _ & _).
    eexists.
    apply (@notebook_run f (bay_area_full_strongly_nodes f) (merged_parcels f) l1 l2);
      [|exact H1|exact H2].
    rewrite load_and_merge_eq, H3, H4. reflexivity.
Qed.

Lemma notebook_cases (f : files) :
  pd.is_unique (map fst (parcels_joined_blocks f)) = true ->
  pd.is_unique (map osmid (bay_area_full_strongly_nodes f)) = true ->
  notebook f = Raise (ValueError NonFinite) \/
  notebook f = Raise IndexError \/
  notebook f = Raise (ValueError EmptyArray) \/
  (forallb finite_point (node_locations f) = true /\
   forallb finite_point (centroids_of f) = true /\
   bay_area_full_strongly_nodes f <> [] /\
   centroids_of f <> [] /\
   exists out, notebook f = OK out).
Proof.
  intros H3 H4.
  destruct (notebook_outcome f) as (_ & _ & D3 & D4 & D5 & D6 & D7).
  destruct (forallb_false_or_true finite_point (node_locations f)) as [Hfn|Hfn];
    [|left; auto].
  destruct (forallb_false_or_true finite_point (centroids_of f)) as [Hfp|Hfp];
    [|left; auto].
  destruct (centroids_of f) as [|c cs] eqn:Ec.
  { right; right; left. apply D6; auto. }
  destruct (bay_area_full_strongly_nodes f) as [|n ns] eqn:En.
  { right; left. apply D5; auto. discriminate. }
  right; right; right. repeat split; auto; try discriminate.
  apply D7; auto; discriminate.
Qed.

(** X2.  The notebook runs through only if the lookup table and the node
    table have unique ids, there is at least one node and at least one
    parcel with a geometry, and all node coordinates and all centroids
    are finite. *)
Theorem notebook_succeeds_only_if (f : files) (out : list saved) :
  notebook f = OK out ->
  pd.is_unique (map fst (parcels_joined_blocks f)) = true /\
  pd.is_unique (map osmid (bay_area_full_strongly_nodes f)) = true /\
  bay_area_full_strongly_nodes f <> [] /\
  forallb finite_point (node_locations f) = true /\
  filter has_geometry (Parcels f) <> [] /\
  forallb finite_point (centroids_of f) = true.
Proof.
  intros H.
  destruct (notebook_outcome f) as (D1 & D2 & _).
  assert (Hc : centroids_of f <> [] -> filter has_geometry (Parcels f) <> []).
  { unfold centroids_of. rewrite map_eq_nil_iff. tauto. }
  destruct (pd.is_unique (map fst (parcels_joined_blocks f))) eqn:H3;
    [|rewrite D1 in H by reflexivity; discriminate].
  destruct (pd.is_unique (map osmid (bay_area_full_strongly_nodes f))) eqn:H4;
    [|rewrite D2 in H by reflexivity; discriminate].
  destruct (notebook_cases f H3 H4) as [E|[E|[E|(Hfn & Hfp & Hne & Hce & _)]]];
    try (rewrite E in H; discriminate).
  repeat split; auto.
Qed.

Lemma notebook_succeeds_only_if_witness :
  pd.is_unique (map fst (parcels_joined_blocks sample_files)) = true /\
  pd.is_unique (map osmid (bay_area_full_strongly_nodes sample_files)) = true /\
  bay_area_full_strongly_nodes sample_files <> [] /\
  forallb finite_point (node_locations sample_files) = true /\
  filter has_geometry (Parcels sample_files) <> [] /\
  forallb finite_point (centroids_of sample_files) = true.
Proof.
  exact (@notebook_succeeds_only_if sample_files _ sample_run).
Defined.

(** X3.  The notebook stops with [AssertionError] exactly when a parcel id is
    repeated in the lookup table or an [osmid] is repeated in the node
    table; parcel ids repeated in the shapefile never trigger it. *)
Theorem notebook_assertion_error_iff (f : files) :
  notebook f = Raise AssertionError <->
  pd.is_unique (map fst (parcels_joined_blocks f)) = false \/
  pd.is_unique (map osmid (bay_area_full_strongly_nodes f)) = false.
Proof.
  destruct (notebook_outcome f) as (D1 & D2 & _).
  split.
  - intros H.
    destruct (pd.is_unique (map fst (parcels_joined_blocks f))) eqn:H3; [|auto].
    destruct (pd.is_unique (map osmid (bay_area_full_strongly_nodes f))) eqn:H4; [|auto].
    destruct (notebook_cases f H3 H4) as [E|[E|[E|(_ & _ & _ & _ & out & E)]]];
      rewrite E in H; discriminate.
  - intros [H3|H4]; [apply D1; exact H3|].
    destruct (pd.is_unique (map fst (parcels_joined_blocks f))) eqn:H3.
    + apply D2; auto.
    + apply D1; reflexivity.
Qed.

(** X4.  The positional assignment to [parcels['node']] never has the wrong
    length and the columns the last cells select are always there:
    whatever the input tables, the notebook never ends with a length
    mismatch or a [KeyError]. *)
Theorem notebook_never_misaligned (f : files) :
  notebook f <> Raise (ValueError LengthMismatch) /\
  notebook f <> Raise KeyError.
Proof.
  destruct (notebook_outcome f) as (D1 & D2 & _).
  assert (H : forall e, notebook f = Raise e ->
                        e = AssertionError \/ e = ValueError NonFinite \/
                        e = IndexError \/ e = ValueError EmptyArray).
  { intros e He.
    destruct (pd.is_unique (map fst (parcels_joined_blocks f))) eqn:H3;
      [|rewrite D1 in He by reflexivity; injection He as <-; auto].
    destruct (pd.is_unique (map osmid (bay_area_full_strongly_nodes f))) eqn:H4;
      [|rewrite D2 in He by reflexivity; injection He as <-; auto].
    destruct (notebook_cases f H3 H4) as [E|[E|[E|(_ & _ & _ & _ & out & E)]]];
      rewrite E in He; try discriminate; injection He as <-; auto. }
  split; intros E; destruct (H _ E) as [X|[X|[X|X]]]; discriminate.
Qed.

(** X5.  When no parcel of the shapefile has a geometry, and the lookup and
    node tables are otherwise in order, the euclidean method has nothing
    to label and succeeds, but the ball tree refuses the empty batch: the
    notebook stops with [ValueError] and saves nothing. *)
Theorem no_parcel_with_geometry_stops_the_run (f : files) :
  pd.is_unique (map fst (parcels_joined_blocks f)) = true ->
  pd.is_unique (map osmid (bay_area_full_strongly_nodes f)) = true ->
  forallb finite_point (node_locations f) = true ->
  filter has_geometry (Parcels f) = [] ->
  scipy_euclidean_method (bay_area_full_strongly_nodes f) (merged_parcels f)
    = OK ([], [], {| rows := []; node_col := Some [] |}) /\
  notebook f = Raise (ValueError EmptyArray).
Proof.
  intros H3 H4 Hfn Hg.
  destruct (notebook_outcome f) as (_ & _ & _ & _ & _ & D6 & _).
  assert (Hc : centroids_of f = []) by (unfold centroids_of; rewrite Hg; reflexivity).
  assert (Er : rows (merged_parcels f) = []).
  { apply (map_eq_nil_iff centroid). rewrite (@merged_parcels_centroids f H3). exact Hc. }
  split; [|apply D6; auto].
  rewrite scipy_euclidean_method_no_query by assumption. rewrite Er. reflexivity.
Qed.

Lemma no_parcel_with_geometry_stops_the_run_witness :
  scipy_euclidean_method two_nodes (merged_parcels no_geometry_files)
    = OK ([], [], {| rows := []; node_col := Some [] |}) /\
  notebook no_geometry_files = Raise (ValueError EmptyArray).
Proof.
  apply (@no_parcel_with_geometry_stops_the_run no_geometry_files); reflexivity.
Defined.

(** ** Permuting the node table *)







(** ** A label depends on the nodes and on its own centroid only *)

Lemma found_at_functional (d : rpoint -> rpoint -> R) (data : list rpoint)
  (nodes : list node) (q : rpoint) (id1 id2 : Z) :
  found_at d data nodes q id1 -> found_at d data nodes q id2 -> id1 = id2.
Proof.
  intros (j1 & d1 & n1 & H1 & N1 & <-) (j2 & d2 & n2 & H2 & N2 & <-).
  rewrite H1 in H2. injection H2 as <- _. rewrite N1 in N2. injection N2 as <-.
  reflexivity.
Qed.

Lemma indexed_rows_functional (m : selector) (nodes : list node) (d1 d2 : list rpoint) :
  Forall2 (fun n r => spec_coordinates m (location_of_node n) = Some r) nodes d1 ->
  Forall2 (fun n r => spec_coordinates m (location_of_node n) = Some r) nodes d2 ->
  d1 = d2.
Proof.
  intros H1 H2. eapply Forall2_functional; [exact H1 | exact H2 |].
  intros n r1 r2 _ E1 E2. congruence.
Qed.

(** The converse of [method_OK]: labels found by the scan are the labels
    the run writes. *)
Lemma method_complete (m : selector) (nodes : list node) (parcels : parcels_df)
  (data : list rpoint) (labels : list Z) :
  Forall2 (fun n r => spec_coordinates m (location_of_node n) = Some r) nodes data ->
  Forall2 (fun p id => exists q,
               spec_coordinates m (centroid p) = Some q /\
               found_at (distance (metric_of m)) data nodes q id)
          (rows parcels) labels ->
  (m = geodesic -> rows parcels <> []) ->
  method m nodes parcels = OK {| rows := rows parcels; node_col := Some labels |}.
Proof.
  intros Hd Hl Hgeo.
  assert (Hfn : forallb finite_point (map location_of_node nodes) = true).
  { apply forallb_forall. intros loc Hloc. apply in_map_iff in Hloc as (n & <- & Hn).
    destruct (Forall2_In_l _ Hd Hn) as (r & _ & Hr).
    eapply spec_coordinates_finite; eassumption. }
  assert (Hfp : forallb finite_point (map centroid (rows parcels)) = true).
  { apply forallb_forall. intros c Hc. apply in_map_iff in Hc as (p & <- & Hp).
    destruct (Forall2_In_l _ Hl Hp) as (id & _ & q & Hq & _).
    eapply spec_coordinates_finite; eassumption. }
  destruct (rows parcels) as [|p0 ps] eqn:Er.
  { inversion Hl; subst. destruct m; [|exfalso; apply Hgeo; reflexivity].
    unfold method. rewrite scipy_euclidean_method_no_query by assumption.
    rewrite Er. reflexivity. }
  rewrite <- Er in *.
  assert (Hne : nodes <> []).
  { intros ->. inversion Hd; subst. rewrite Er in Hl.
    inversion Hl as [|? ? ? ? (q & _ & j & dj & n & Hn & _) _]; subst.
    discriminate. }
  destruct (@method_total m nodes parcels Hne Hfn Hgeo Hfp) as [p' H].
  rewrite H. f_equal.
  destruct (method_OK _ _ _ H) as (data' & labels' & Hd' & -> & _ & Hl' & _).
  rewrite (indexed_rows_functional _ Hd' Hd) in Hl'.
  f_equal. f_equal.
  eapply Forall2_functional; [exact Hl' | exact Hl |].
  intros p id1 id2 _ (q1 & Q1 & F1) (q2 & Q2 & F2).
  rewrite Q1 in Q2. injection Q2 as <-. eapply found_at_functional; eassumption.
Qed.

(** X6.  The label written for a parcel depends on the node table and on the
    parcel's own centroid only: in any two runs of a variant over the
    same nodes, two parcels with the same centroid get the same label,
    whatever else is in either batch. *)
Theorem label_depends_on_own_centroid
  (m : selector) (nodes : list node) (p1 p2 p1' p2' : parcels_df)
  (l1 l2 : list Z) (i j : nat) (a b : parcel) (id1 id2 : Z) :
  method m nodes p1 = OK p1' -> node_col p1' = Some l1 ->
  method m nodes p2 = OK p2' -> node_col p2' = Some l2 ->
  nth_error (rows p1) i = Some a -> nth_error l1 i = Some id1 ->
  nth_error (rows p2) j = Some b -> nth_error l2 j = Some id2 ->
  centroid a = centroid b ->
  id1 = id2.
Proof.
  intros H1 C1 H2 C2 Ra La Rb Lb Ec.
  destruct (method_OK _ _ _ H1) as (d1 & k1 & Hd1 & -> & _ & Hl1 & _).
  destruct (method_OK _ _ _ H2) as (d2 & k2 & Hd2 & -> & _ & Hl2 & _).
  simpl in C1, C2. injection C1 as ->. injection C2 as ->.
  rewrite (indexed_rows_functional _ Hd2 Hd1) in Hl2.
  destruct (Forall2_nth_l _ Hl1 Ra) as (x1 & X1 & q1 & Q1 & F1).
  destruct (Forall2_nth_l _ Hl2 Rb) as (x2 & X2 & q2 & Q2 & F2).
  rewrite La in X1. injection X1 as <-. rewrite Lb in X2. injection X2 as <-.
  rewrite Ec, Q2 in Q1. injection Q1 as <-.
  eapply found_at_functional; eassumption.
Qed.

(** X7.  The runs compose over batches: the labels of two batches put end to
    end are the labels of the first followed by those of the second. *)
Theorem batches_concatenate
  (m : selector) (nodes : list node) (pa pb : parcels_df) (la lb : list Z)
  (col : option (list Z)) :
  method m nodes pa = OK {| rows := rows pa; node_col := Some la |} ->
  method m nodes pb = OK {| rows := rows pb; node_col := Some lb |} ->
  method m nodes {| rows := rows pa ++ rows pb; node_col := col |}
  = OK {| rows := rows pa ++ rows pb; node_col := Some (la ++ lb) |}.
Proof.
  intros Ha Hb.
  destruct (method_OK _ _ _ Ha) as (d1 & k1 & Hd1 & E1 & _ & Hl1 & G1).
  destruct (method_OK _ _ _ Hb) as (d2 & k2 & Hd2 & E2 & _ & Hl2 & _).
  injection E1 as <-. injection E2 as <-.
  rewrite (indexed_rows_functional _ Hd2 Hd1) in Hl2.
  apply (@method_complete m nodes {| rows := rows pa ++ rows pb; node_col := col |}
           d1 (la ++ lb)); [exact Hd1 | apply Forall2_app; assumption |].
  intros Em. simpl. specialize (G1 Em).
  destruct (rows pa); [contradiction | discriminate].
Qed.

Lemma midway_nearest :
  nearest (euclidean (5, 5)%R) (@cons rpoint (0, 0)%R (@cons rpoint (10, 10)%R nil))
  = Some (O, euclidean (5, 5)%R (0, 0)%R).
Proof. exact midway_tie. Qed.

Lemma midway_method_run :
  method planar two_nodes midway_parcel
  = OK {| rows := rows midway_parcel; node_col := Some [1%Z] |}.
Proof.
  unfold method, scipy_euclidean_method, cell_9, cell_10, scipy.cKDTree_init, scipy.query.
  cbn [two_nodes midway_parcel mk_frame rows cols2 map np.finite_rows np.finite_row
       mk_parcel mk_node x y parcel_XY node_XY node_x node_y centroid fst snd bind].
  unfold scipy.query1. cbn [scipy.data]. rewrite midway_nearest. reflexivity.
Qed.

Lemma two_parcels_run :
  method planar two_nodes two_parcels
  = OK {| rows := rows two_parcels; node_col := Some [1%Z; 1%Z] |}.
Proof.
  unfold method, scipy_euclidean_method, cell_9, cell_10, scipy.cKDTree_init, scipy.query.
  cbn [two_nodes two_parcels mk_frame rows cols2 map np.finite_rows np.finite_row
       mk_parcel mk_node x y parcel_XY node_XY node_x node_y centroid fst snd bind].
  unfold scipy.query1. cbn [scipy.data]. rewrite midway_nearest, origin_nearest.
  reflexivity.
Qed.

Lemma label_depends_on_own_centroid_witness : 1%Z = 1%Z.
Proof.
  exact (@label_depends_on_own_centroid planar two_nodes one_parcel two_parcels _ _
           [1%Z] [1%Z; 1%Z] 0 1 (mk_parcel 7 (Fin 0, Fin 0)) (mk_parcel 11 (Fin 0, Fin 0))
           1%Z 1%Z origin_run eq_refl two_parcels_run eq_refl
           eq_refl eq_refl eq_refl eq_refl eq_refl).
Defined.

Lemma batches_concatenate_witness :
  method planar two_nodes
    {| rows := rows one_parcel ++ rows midway_parcel; node_col := None |}
  = OK {| rows := rows one_parcel ++ rows midway_parcel;
          node_col := Some ([1%Z] ++ [1%Z]) |}.
Proof.
  exact (@batches_concatenate planar two_nodes one_parcel midway_parcel
           [1%Z] [1%Z] None origin_run midway_method_run).
Defined.

(** ** The node labels and the block lookup do not meet *)

Lemma merged_parcels_shapes (f : files) :
  pd.is_unique (map fst (parcels_joined_blocks f)) = true ->
  map shp (rows (merged_parcels f)) = filter has_geometry (Parcels f).
Proof.
  intros Hu. unfold merged_parcels.
  rewrite cell_5_dropna. unfold cell_6.
  rewrite merge_left_unique by (apply is_unique_NoDup; exact Hu).
  unfold cell_7_8. simpl rows. rewrite !map_map. simpl. apply map_id.
Qed.

Lemma combine_map_l {A A' B : Type} (g : A -> A') (l : list A) (l' : list B) :
  map (fun r => (g (fst r), snd r)) (combine l l') = combine (map g l) l'.
Proof.
  revert l'; induction l as [|a l IH]; intros [|b l']; simpl; try reflexivity.
  rewrite IH. reflexivity.
Qed.

(** A run reads the centroids of the batch only. *)
Lemma method_same_centroids (m : selector) (nodes : list node)
  (p1 p2 : parcels_df) (l : list Z) :
  method m nodes p1 = OK {| rows := rows p1; node_col := Some l |} ->
  map centroid (rows p2) = map centroid (rows p1) ->
  method m nodes p2 = OK {| rows := rows p2; node_col := Some l |}.
Proof.
  intros H Ec.
  destruct (method_OK _ _ _ H) as (data & labels & Hd & E & _ & Hl & Hgeo).
  injection E as <-.
  apply (@method_complete m nodes p2 data l); [exact Hd | |].
  - apply (@Forall2_map_l _ _ _ centroid
             (fun c id => exists q, spec_coordinates m c = Some q /\
                                    found_at (distance (metric_of m)) data nodes q id)).
    rewrite Ec.
    apply (@Forall2_map_l _ _ _ centroid
             (fun c id => exists q, spec_coordinates m c = Some q /\
                                    found_at (distance (metric_of m)) data nodes q id)).
    exact Hl.
  - intros Em E2. apply (Hgeo Em). apply (map_eq_nil_iff centroid).
    rewrite <- Ec, E2. reflexivity.
Qed.

(** X8.  The node labels do not depend on the block lookup: replacing the
    lookup table by any other table with unique parcel ids leaves the run
    successful and the saved pairs of parcel id and node id unchanged. *)
Theorem node_ids_ignore_block_lookup (f f' : files) (out : list saved) :
  Parcels f' = Parcels f ->
  bay_area_full_strongly_nodes f' = bay_area_full_strongly_nodes f ->
  pd.is_unique (map fst (parcels_joined_blocks f')) = true ->
  notebook f = OK out ->
  exists out',
    notebook f' = OK out' /\
    map (fun r => (parcel_id r, node_id r)) out'
    = map (fun r => (parcel_id r, node_id r)) out.
Proof.
  intros Ep En Hu' H.
  apply notebook_OK in H as (nodes & parcels & k1 & l & Hl & Hp & Hm & Hlen & ->).
  destruct (load_and_merge_OK _ Hl) as (-> & Hu & Hn & ->).
  change (cell_7_8 (cell_6 (cell_5 (dropna_geometry (read_file (Parcels f))))
                           (parcels_joined_blocks f)))
    with (merged_parcels f) in *.
  assert (Hl' : load_and_merge f'
                = OK (bay_area_full_strongly_nodes f, merged_parcels f')).
  { rewrite load_and_merge_eq, Hu', En, Hn. reflexivity. }
  assert (Ec : map centroid (rows (merged_parcels f'))
               = map centroid (rows (merged_parcels f))).
  { rewrite (@merged_parcels_centroids f Hu), (@merged_parcels_centroids f' Hu').
    unfold centroids_of. rewrite Ep. reflexivity. }
  pose proof (@method_same_centroids _ _ _ _ _ Hp Ec) as Hp'.
  pose proof (@method_same_centroids _ _ _ _ _ Hm Ec) as Hm'.
  eexists. split; [exact (@notebook_run _ _ _ _ _ Hl' Hp' Hm')|].
  rewrite !map_map. cbn [parcel_id node_id].
  rewrite !(combine_map_l (fun p => PARCEL_ID (shp p))).
  rewrite <- !(map_map shp PARCEL_ID).
  rewrite (@merged_parcels_shapes f Hu), (@merged_parcels_shapes f' Hu'), Ep.
  reflexivity.
Qed.

Lemma node_ids_ignore_block_lookup_witness :
  exists out',
    notebook {| Parcels := Parcels sample_files;
                parcels_joined_blocks := [];
                bay_area_full_strongly_nodes :=
                  bay_area_full_strongly_nodes sample_files |} = OK out' /\
    map (fun r => (parcel_id r, node_id r)) out'
    = map (fun r => (parcel_id r, node_id r))
          [ {| parcel_id := 7; block_id := Some "060014001001000"%string; node_id := 1 |};
            {| parcel_id := 9; block_id := None; node_id := 1 |} ].
Proof.
  apply (@node_ids_ignore_block_lookup sample_files
           {| Parcels := Parcels sample_files;
              parcels_joined_blocks := [];
              bay_area_full_strongly_nodes :=
                bay_area_full_strongly_nodes sample_files |});
    try reflexivity.
Defined.

(** ** The shapefile of cell 15 *)

Lemma int_of_str_astype_str (z : Z) : int_of_str (astype_str z) = Some z.
Proof.
  unfold int_of_str, astype_str.
  rewrite NilZero.isi.
  - simpl. rewrite DecimalZ.of_to. reflexivity.
  - destruct z as [|p|p]; simpl; try discriminate.
    intros [= E]. exact (Unsigned.to_uint_nonnil p E).
  - destruct z as [|p|p]; simpl; try discriminate.
    intros [= E]. exact (Unsigned.to_uint_nonnil p E).
Qed.

Lemma Forall2_map_same {A B C : Type} (P : B -> C -> Prop)
  (g : A -> B) (h : A -> C) (l : list A) :
  (forall a, In a l -> P (g a) (h a)) -> Forall2 P (map g l) (map h l).
Proof.
  induction l as [|a l IH]; simpl; intros H; constructor; auto.
Qed.

Lemma notebook_to_disk_OK (f : files) (out : list saved) (shapefile : list saved_shape) :
  notebook_to_disk f = OK (out, shapefile) ->
  exists labels,
    pd.is_unique (map fst (parcels_joined_blocks f)) = true /\
    notebook f = OK out /\
    length labels = length (rows (merged_parcels f)) /\
    out = map (fun r => {| parcel_id := PARCEL_ID (shp (fst r));
                           block_id := block_geoid (fst r);
                           node_id := snd r |})
              (combine (rows (merged_parcels f)) labels) /\
    shapefile = map (fun r => {| shp_PARCEL_ID := PARCEL_ID (shp (fst r));
                                 shp_geometry := geometry (shp (fst r));
                                 shp_block_geoid := block_geoid (fst r);
                                 shp_node := astype_str (snd r) |})
                    (combine (rows (merged_parcels f)) labels).
Proof.
  unfold notebook_to_disk. intros H.
  inv_bind H as np0 Hload. destruct np0 as [nodes parcels].
  inv_bind H as r1 H1. destruct r1 as [[dist idx] p1].
  inv_bind H as r2 H2. destruct r2 as [idx2 p2].
  inv_bind H as df Hdf. inv_bind H as sf Hsf. injection H as <- <-.
  assert (Hn : notebook f = OK df).
  { unfold notebook. rewrite Hload. cbn [bind]. rewrite H1. cbn [bind].
    rewrite H2. cbn [bind]. exact Hdf. }
  destruct (load_and_merge_OK _ Hload) as (_ & Hu & _ & ->).
  pose proof (scipy_euclidean_method_OK _ _ H1) as (_ & l1 & _ & _ & -> & _).
  pose proof (sklearn_haversine_method_OK _ _ H2) as (_ & l2 & _ & _ & -> & Hlen & _).
  simpl rows in Hlen.
  exists l2. split; [exact Hu|]. split; [exact Hn|]. split; [exact Hlen|].
  unfold cell_14 in Hdf. unfold cell_15 in Hsf. simpl in Hdf, Hsf.
  injection Hdf as <-. injection Hsf as <-. split; reflexivity.
Qed.

(** X11.  The shapefile of cell 15 is written whenever the csv of cell 14 is,
    and agrees with it row for row: same parcel id, same block id, a
    geometry that is not missing, and a node label whose text reads back
    as the node id of the csv, however large that id is. *)
Theorem shapefile_agrees_with_csv (f : files) :
  (forall out, notebook f = OK out ->
               exists shapefile, notebook_to_disk f = OK (out, shapefile)) /\
  (forall out shapefile,
      notebook_to_disk f = OK (out, shapefile) ->
      notebook f = OK out /\
      Forall2 (fun c s => shp_PARCEL_ID s = parcel_id c /\
                          shp_block_geoid s = block_id c /\
                          shp_geometry s <> None /\
                          int_of_str (shp_node s) = Some (node_id c))
              out shapefile).
Proof.
  split.
  - intros out H. unfold notebook in H. unfold notebook_to_disk.
    inv_bind H as np0 Hload. destruct np0 as [nodes parcels].
    inv_bind H as r1 H1. destruct r1 as [[dist idx] p1].
    inv_bind H as r2 H2. destruct r2 as [idx2 p2].
    rewrite Hload. cbn [bind]. rewrite H1. cbn [bind]. rewrite H2. cbn [bind].
    rewrite H. cbn [bind].
    unfold cell_14 in H. unfold cell_15.
    destruct (node_col p2); [|discriminate]. cbn [bind]. eauto.
  - intros out shapefile H.
    apply notebook_to_disk_OK in H as (labels & Hu & Hn & Hlen & -> & ->).
    split; [exact Hn|].
    apply Forall2_map_same. intros [p id] Hin. simpl.
    repeat split; [|apply int_of_str_astype_str].
    apply in_combine_l in Hin.
    assert (Hs : In (shp p) (filter has_geometry (Parcels f))).
    { rewrite <- (@merged_parcels_shapes f Hu). apply in_map. exact Hin. }
    apply filter_In in Hs as [_ Hg]. unfold has_geometry in Hg.
    destruct (geometry (shp p)); [discriminate | discriminate].
Qed.

(** Distinct node ids stay distinct as text. *)
Lemma astype_str_injective (a b : Z) : astype_str a = astype_str b -> a = b.
Proof.
  intros E. pose proof (int_of_str_astype_str a) as Ha.
  rewrite E, int_of_str_astype_str in Ha. congruence.
Qed.

Lemma shapefile_agrees_with_csv_witness :
  exists shapefile,
    notebook_to_disk sample_files
    = OK ([ {| parcel_id := 7; block_id := Some "060014001001000"%string; node_id := 1 |};
            {| parcel_id := 9; block_id := None; node_id := 1 |} ],
          shapefile).
Proof.
  exact (proj1 (@shapefile_agrees_with_csv sample_files) _ sample_run).
Defined.

(** ** Longitude at the pole *)

Lemma haversine_at_pole (a b : R) :
  haversine (90 * PI / 180, b * PI / 180)%R (90 * PI / 180, a * PI / 180)%R = 0%R.
Proof.
  unfold haversine, sqr; simpl fst; simpl snd.
  replace ((90 * PI / 180 - 90 * PI / 180) / 2)%R with 0%R by lra.
  replace (90 * PI / 180)%R with (PI / 2)%R by lra.
  rewrite sin_0, cos_PI2.
  match goal with
  | |- (2 * asin (sqrt ?e) = 0)%R => replace e with 0%R by ring
  end.
  rewrite sqrt_0, asin_0. ring.
Qed.

(** X1.  For a parcel at the pole the two methods part ways.  With node 1 at
    the pole under any longitude [a] and node 2 one degree south on the
    parcel's own meridian [b], the haversine method labels the parcel
    with node 1, and the euclidean method on the degrees labels it with
    node 2 when the two longitudes are at least two degrees apart (node 1
    is then at least twice as far as node 2 on the degrees). *)
Theorem pole_longitude_matters_to_euclidean_only (a b : R) :
  (4 <= (b - a) * (b - a))%R ->
  method planar [mk_node 1 a 90; mk_node 2 b 89] (mk_frame [mk_parcel 7 (Fin b, Fin 90)])
    = OK {| rows := [mk_parcel 7 (Fin b, Fin 90)]; node_col := Some [2%Z] |} /\
  method geodesic [mk_node 1 a 90; mk_node 2 b 89] (mk_frame [mk_parcel 7 (Fin b, Fin 90)])
    = OK {| rows := [mk_parcel 7 (Fin b, Fin 90)]; node_col := Some [1%Z] |}.
Proof.
  intros Hab. split.
  - assert (E : nearest (euclidean (b, 90)%R)
                  (@cons rpoint (a, 90)%R (@cons rpoint (b, 89)%R nil))
                = Some (1%nat, euclidean (b, 90)%R (b, 89)%R)).
    { eapply nearest_tail; [apply nearest_one|].
      unfold euclidean, sqr; simpl fst; simpl snd.
      apply sqrt_lt_1_alt. lra. }
    unfold method, scipy_euclidean_method, cell_9, cell_10, scipy.cKDTree_init,
      scipy.query.
    cbn [mk_frame rows cols2 map np.finite_rows np.finite_row
         mk_parcel mk_node x y parcel_XY node_XY node_x node_y centroid fst snd bind].
    unfold scipy.query1. cbn [scipy.data]. rewrite E. reflexivity.
  - assert (E : nearest (haversine (90 * PI / 180, b * PI / 180)%R)
                  (@cons rpoint (90 * PI / 180, a * PI / 180)%R
                     (@cons rpoint (89 * PI / 180, b * PI / 180)%R nil))
                = Some (O, haversine (90 * PI / 180, b * PI / 180)%R
                                     (90 * PI / 180, a * PI / 180)%R)).
    { eapply nearest_head; [apply nearest_one|].
      rewrite haversine_at_pole. apply haversine_nonneg. }
    unfold method, sklearn_haversine_method, cell_11, cell_12, cell_13,
      sklearn.BallTree_init, sklearn.query, sklearn.check_array.
    cbn [mk_frame rows cols2 map np.finite_rows np.finite_row
         np.deg2rad2 np.deg2rad mk_parcel mk_node x y parcel_XY node_XY node_x node_y
         centroid fst snd bind mapM sklearn.data sklearn.dist_metric distance].
    rewrite E. reflexivity.
Qed.

Lemma pole_longitude_matters_to_euclidean_only_witness :
  method planar [mk_node 1 180 90; mk_node 2 0 89] (mk_frame [mk_parcel 7 (Fin 0, Fin 90)])
    = OK {| rows := [mk_parcel 7 (Fin 0, Fin 90)]; node_col := Some [2%Z] |} /\
  method geodesic [mk_node 1 180 90; mk_node 2 0 89] (mk_frame [mk_parcel 7 (Fin 0, Fin 90)])
    = OK {| rows := [mk_parcel 7 (Fin 0, Fin 90)]; node_col := Some [1%Z] |}.
Proof.
  apply (@pole_longitude_matters_to_euclidean_only 180 0). lra.
Defined.
